(** * RichMediaPopup: the focus-mode popup component

    A shallow embedding of [src/components/customRules/RichMediaPopup.tsx].

    The component is a React function component with four [useState] cells,
    two window listeners, one [setTimeout] per displayed popup and a render
    body.  It is modelled as a transition system:

    - the four cells are the fields of [State], together with the queue of
      pending auto-dismiss timers;
    - every handler is a function from the state to the next state and the
      list of window events it dispatches;
    - the render body is a function from the context and the state to the
      rendered tree.

    Handlers read the cells through the closure of the last committed
    render; the effect re-subscribes the listeners whenever
    [lastShownAppId], [notificationData] or [customImage] changes.  The
    transition system ([step], [run]) takes every external event to be
    handled after the previous update has been committed and the effect
    has run again, so a handler sees the current state.  What a listener
    does that was created in an earlier render is given by [showListener]
    and [handleNotificationDismissed], which take the state the listener
    has captured apart from the state its setters act on; the statements
    that depend on the render a listener belongs to are made with them.
    The one place where a listener runs inside another handler (the
    component hears its own [notification-dismissed] event) is modelled
    explicitly.

    JavaScript strings are sequences of UTF-16 code units and are modelled
    as lists of code units. *)

From Stdlib Require Import List Bool NArith Lia String Ascii.
Import ListNotations.

Local Open Scope N_scope.
Local Open Scope list_scope.

(* ================================================================== *)
(** ** JavaScript strings *)

Module JS.

Definition code_unit := N.
Definition jsstring := list code_unit.

(** An ASCII literal as a JavaScript string. *)
Fixpoint lit (s : string) : jsstring :=
  match s with
  | EmptyString => []
  | String a r => N_of_ascii a :: lit r
  end.

(** [a === b] on strings. *)
Fixpoint str_eqb (a b : jsstring) : bool :=
  match a, b with
  | [], [] => true
  | x :: a', y :: b' => (x =? y) && str_eqb a' b'
  | _, _ => false
  end.

(** Truthiness of a string: every string but the empty one. *)
Definition truthy (s : jsstring) : bool :=
  match s with [] => false | _ :: _ => true end.

(** Truthiness of [string | undefined] and of [string | null]. *)
Definition truthy_opt (o : option jsstring) : bool :=
  match o with Some s => truthy s | None => false end.

(** [a || b] on optional strings. *)
Definition or_else (a b : option jsstring) : option jsstring :=
  if truthy_opt a then a else b.

(** [a || "literal"]: the right operand is a string, so is the result. *)
Definition or_default (a : option jsstring) (b : jsstring) : jsstring :=
  match a with
  | Some s => if truthy s then s else b
  | None => b
  end.

(** White space and line terminators, the code units [trim] strips. *)
Definition is_white_space (c : code_unit) : bool :=
  (c =? 9) || (c =? 10) || (c =? 11) || (c =? 12) || (c =? 13) ||
  (c =? 32) || (c =? 160) || (c =? 5760) ||
  ((8192 <=? c) && (c <=? 8202)) ||
  (c =? 8232) || (c =? 8233) || (c =? 8239) || (c =? 8287) ||
  (c =? 12288) || (c =? 65279).

Fixpoint trim_start (s : jsstring) : jsstring :=
  match s with
  | [] => []
  | c :: r => if is_white_space c then trim_start r else s
  end.

(** [String.prototype.trim]. *)
Definition trim (s : jsstring) : jsstring :=
  rev (trim_start (rev (trim_start s))).

(** [strip_prefix p s] is the rest of [s] after its prefix [p], if [p] is
    a prefix of [s]. *)
Fixpoint strip_prefix (p s : jsstring) : option jsstring :=
  match p, s with
  | [], _ => Some s
  | _ :: _, [] => None
  | x :: p', y :: s' => if x =? y then strip_prefix p' s' else None
  end.

(** The first occurrence of [p] in [s] ([indexOf]), as the text before it
    and the text after it. *)
Fixpoint split_first (p s : jsstring) : option (jsstring * jsstring) :=
  match strip_prefix p s with
  | Some after => Some ([], after)
  | None =>
      match s with
      | [] => None
      | c :: s' =>
          match split_first p s' with
          | Some (before, after) => Some (c :: before, after)
          | None => None
          end
      end
  end.

Definition dollar : code_unit := 36.

(** The replacement text of [String.prototype.replace] with a string
    pattern (there are no captures): [$$] is a dollar sign, [$&] the
    matched text, [$`] the text before the match, [$'] the text after it;
    any other code unit, a lone [$] included, stands for itself. *)
Fixpoint GetSubstitution (matched before after templ : jsstring) : jsstring :=
  match templ with
  | [] => []
  | c :: r =>
      if c =? dollar then
        match r with
        | [] => [c]
        | c2 :: r2 =>
            if c2 =? 36 then dollar :: GetSubstitution matched before after r2
            else if c2 =? 38 then matched ++ GetSubstitution matched before after r2
            else if c2 =? 96 then before ++ GetSubstitution matched before after r2
            else if c2 =? 39 then after ++ GetSubstitution matched before after r2
            else c :: GetSubstitution matched before after r
        end
      else c :: GetSubstitution matched before after r
  end.

(** [s.replace(pat, templ)] with a string pattern: only the first
    occurrence is replaced; without an occurrence [s] is returned. *)
Definition replace (s pat templ : jsstring) : jsstring :=
  match split_first pat s with
  | Some (before, after) => before ++ GetSubstitution pat before after templ ++ after
  | None => s
  end.

End JS.
Import JS.

(* ================================================================== *)
(** ** The pattern [/focus-mode-(.*?)-\d+/] *)

Module AppIdPattern.

Definition is_digit (c : code_unit) : bool := (48 <=? c) && (c <=? 57).

(** [.] matches every code unit but the line terminators. *)
Definition is_line_terminator (c : code_unit) : bool :=
  (c =? 10) || (c =? 13) || (c =? 8232) || (c =? 8233).

Definition hyphen : code_unit := 45.

(** The rest of the pattern after the group, [-\d+], at the head of [s]:
    a hyphen and one digit suffice, [\d+] then takes the digits that
    follow. *)
Definition tail_matches (s : jsstring) : bool :=
  match s with
  | c1 :: c2 :: _ => (c1 =? hyphen) && is_digit c2
  | _ => false
  end.

(** The lazy group [(.*?)]: the shortest run of code units (none of them a
    line terminator) after which the rest of the pattern matches.  [acc]
    is the run taken so far, reversed. *)
Fixpoint lazy_group (acc s : jsstring) : option jsstring :=
  if tail_matches s then Some (rev acc)
  else
    match s with
    | [] => None
    | c :: r => if is_line_terminator c then None else lazy_group (c :: acc) r
    end.

Definition prefix : jsstring := lit "focus-mode-".

(** The match attempted at the head of [s]. *)
Definition match_here (s : jsstring) : option jsstring :=
  match strip_prefix prefix s with
  | Some r => lazy_group [] r
  | None => None
  end.

(** [id.match(/focus-mode-(.*?)-\d+/)]: the leftmost position at which the
    pattern matches; the result is capture group 1, [None] when there is
    no match. *)
Fixpoint match_app_id (id : jsstring) : option jsstring :=
  match match_here id with
  | Some g => Some g
  | None =>
      match id with
      | [] => None
      | _ :: r => match_app_id r
      end
  end.

End AppIdPattern.
Import AppIdPattern.

(* ================================================================== *)
(** ** Data model *)

(** The record kept in the [notificationData] cell. *)
Record NotificationData := {
  title : jsstring;
  body : jsstring;
  notificationId : jsstring;
  appName : option jsstring;
  mediaContent : option jsstring
}.

(** The [detail] of a [show-focus-popup] event. *)
Record ShowDetail := {
  d_title : jsstring;
  d_body : jsstring;
  d_notificationId : jsstring;
  d_appName : option jsstring;
  d_mediaType : option jsstring;
  d_mediaContent : option jsstring
}.

(** What [useFocusMode()] supplies. *)
Record Context := {
  customImage : option jsstring;
  customText : option jsstring
}.

(** The four [useState] cells and the pending [setTimeout] callbacks, each
    given by the time at which it is due, oldest first. *)
Record State := {
  isOpen : bool;
  notificationData : option NotificationData;
  isImageLoaded : bool;
  lastShownAppId : option jsstring;
  timers : list N
}.

(** The state on mount. *)
Definition initial : State :=
  {| isOpen := false; notificationData := None; isImageLoaded := false;
     lastShownAppId := None; timers := [] |}.

(** Window events the component dispatches. *)
Inductive Signal :=
| FocusPopupDisplayed (id : jsstring) (timestamp : N)
| NotificationDismissed (id : jsstring).

(** What can happen to the component. *)
Inductive Event :=
| ShowFocusPopup (detail : ShowDetail)   (* window event show-focus-popup *)
| DismissedElsewhere (id : jsstring)     (* window event notification-dismissed *)
| ClickDismiss                           (* close icon or Dismiss button *)
| TimerFire (due : N)                    (* a pending auto-dismiss timer runs *)
| ImageLoad                              (* onLoad of the image *)
| ImageError                             (* onError of the image *)
| OpenChange (open : bool).              (* onOpenChange of the dialog *)

(** An event and the time (in ms) at which it happens. *)
Record Occurrence := { at_time : N; event : Event }.

(* ================================================================== *)
(** ** State setters *)

Definition setIsOpen (b : bool) (s : State) : State :=
  {| isOpen := b; notificationData := notificationData s;
     isImageLoaded := isImageLoaded s; lastShownAppId := lastShownAppId s;
     timers := timers s |}.

Definition setNotificationData (d : option NotificationData) (s : State) : State :=
  {| isOpen := isOpen s; notificationData := d;
     isImageLoaded := isImageLoaded s; lastShownAppId := lastShownAppId s;
     timers := timers s |}.

Definition setIsImageLoaded (b : bool) (s : State) : State :=
  {| isOpen := isOpen s; notificationData := notificationData s;
     isImageLoaded := b; lastShownAppId := lastShownAppId s;
     timers := timers s |}.

Definition setLastShownAppId (a : option jsstring) (s : State) : State :=
  {| isOpen := isOpen s; notificationData := notificationData s;
     isImageLoaded := isImageLoaded s; lastShownAppId := a;
     timers := timers s |}.

(** [setTimeout(callback, delay)] at time [now]. *)
Definition setTimeout (now delay : N) (s : State) : State :=
  {| isOpen := isOpen s; notificationData := notificationData s;
     isImageLoaded := isImageLoaded s; lastShownAppId := lastShownAppId s;
     timers := timers s ++ [now + delay] |}.

(** The first pending timer due at [due] leaves the queue. *)
Fixpoint remove_timer (due : N) (q : list N) : list N :=
  match q with
  | [] => []
  | t :: r => if t =? due then r else t :: remove_timer due r
  end.

Definition pending (due : N) (s : State) : bool :=
  existsb (N.eqb due) (timers s).

Definition clearTimer (due : N) (s : State) : State :=
  {| isOpen := isOpen s; notificationData := notificationData s;
     isImageLoaded := isImageLoaded s; lastShownAppId := lastShownAppId s;
     timers := remove_timer due (timers s) |}.

(* ================================================================== *)
(** ** Handlers *)

Definition auto_dismiss_delay : N := 8000.

(** [a === b] for [string | null] operands. *)
Definition strict_eq (a b : option jsstring) : bool :=
  match a, b with
  | Some x, Some y => str_eqb x y
  | None, None => true
  | _, _ => false
  end.

(** [appIdMatch ? appIdMatch[1] : null]. *)
Definition currentAppId (detail : ShowDetail) : option jsstring :=
  match_app_id (d_notificationId detail).

(** The guard of the early return. *)
Definition is_duplicate (detail : ShowDetail) (s : State) : bool :=
  truthy_opt (currentAppId detail) &&
  strict_eq (currentAppId detail) (lastShownAppId s).

(** [customImage || event.detail.mediaContent]. *)
Definition finalMediaContent (ctx : Context) (detail : ShowDetail) : option jsstring :=
  or_else (customImage ctx) (d_mediaContent detail).

(** The record passed to [setNotificationData]. *)
Definition assemble (ctx : Context) (detail : ShowDetail) : NotificationData :=
  {| title := d_title detail;
     body := d_body detail;
     notificationId := d_notificationId detail;
     appName := d_appName detail;
     mediaContent := finalMediaContent ctx detail |}.

(** The listener of [show-focus-popup], run at time [now]. *)
Definition handleShowFocusPopup (ctx : Context) (now : N) (detail : ShowDetail)
    (s : State) : State * list Signal :=
  if is_duplicate detail s then (s, [])
  else
    let s1 := if truthy_opt (currentAppId detail)
              then setLastShownAppId (currentAppId detail) s else s in
    let s2 := setNotificationData (Some (assemble ctx detail)) s1 in
    let s3 := setIsOpen true s2 in
    let s4 := setIsImageLoaded false s3 in
    let s5 := setTimeout now auto_dismiss_delay s4 in
    (s5, [FocusPopupDisplayed (d_notificationId detail) now]).

(** The listener of [notification-dismissed].  [seen] is the state of the
    render whose closure the listener belongs to, [s] the state its
    setters act on. *)
Definition handleNotificationDismissed (seen : State) (id : jsstring)
    (s : State) : State :=
  match notificationData seen with
  | Some d =>
      if str_eqb id (notificationId d)
      then setLastShownAppId None (setIsOpen false s)
      else s
  | None => s
  end.

(** The callback given to [setTimeout]. *)
Definition auto_dismiss (s : State) : State := setIsOpen false s.

Definition handleImageLoad (s : State) : State := setIsImageLoaded true s.

Definition handleImageError (s : State) : State := setIsImageLoaded true s.

(** The click handler.  [window.dispatchEvent] runs the listeners of
    [notification-dismissed] before it returns, the component's own
    listener among them. *)
Definition handleDismiss (s : State) : State * list Signal :=
  let s1 := setLastShownAppId None (setIsOpen false s) in
  match notificationData s with
  | Some d =>
      (handleNotificationDismissed s (notificationId d) s1,
       [NotificationDismissed (notificationId d)])
  | None => (s1, [])
  end.

(** One event, handled by the listeners of the render of [s]: the state
    the listener has captured and the state its setters act on are the
    same.  A listener that was created in an earlier render is
    [showListener] below.  A timer that is not pending cannot run. *)
Definition step (ctx : Context) (s : State) (o : Occurrence) : State * list Signal :=
  match event o with
  | ShowFocusPopup detail => handleShowFocusPopup ctx (at_time o) detail s
  | DismissedElsewhere id => (handleNotificationDismissed s id s, [])
  | ClickDismiss => handleDismiss s
  | TimerFire due =>
      if pending due s then (auto_dismiss (clearTimer due s), []) else (s, [])
  | ImageLoad => (handleImageLoad s, [])
  | ImageError => (handleImageError s, [])
  | OpenChange b => (setIsOpen b s, [])
  end.

(** A sequence of events, each handled after the state left by the one
    before has been rendered and the effect has run again; the signals
    are collected in order. *)
Fixpoint run (ctx : Context) (s : State) (tr : list Occurrence) : State * list Signal :=
  match tr with
  | [] => (s, [])
  | o :: r =>
      let (s1, out1) := step ctx s o in
      let (s2, out2) := run ctx s1 r in
      (s2, out1 ++ out2)
  end.

(** Whether the event loop can produce [tr] from clock value [clock]:
    time does not go backwards, and a timer runs only while pending and
    not before it is due. *)
Fixpoint admissible (ctx : Context) (clock : N) (s : State) (tr : list Occurrence) : bool :=
  match tr with
  | [] => true
  | o :: r =>
      (clock <=? at_time o) &&
      match event o with
      | TimerFire due => pending due s && (due <=? at_time o)
      | _ => true
      end &&
      admissible ctx (at_time o) (fst (step ctx s o)) r
  end.

(* ================================================================== *)
(** ** Render *)

Definition systemMessage : jsstring :=
  lit "You're outside your focus zone. {app} is not in your whitelist.".

(** [customImage || notificationData.mediaContent]. *)
Definition displayImage (ctx : Context) (d : NotificationData) : option jsstring :=
  or_else (customImage ctx) (mediaContent d).

Definition bodyText (d : NotificationData) : jsstring :=
  replace (body d) (lit "{app}") (or_default (appName d) (lit "This app")).

Definition motivationalText (ctx : Context) : jsstring :=
  match customText ctx with
  | Some t =>
      if truthy t && negb (str_eqb t systemMessage)
      then trim (replace t systemMessage [])
      else []
  | None => []
  end.

(** The content of the dialog: the [src] of the image when the image block
    is rendered, the heading, the paragraph and the text of the quote when
    the quote block is rendered. *)
Record Dialog := {
  image : option jsstring;
  heading : jsstring;
  paragraph : jsstring;
  quote : option jsstring
}.

Definition dialog (ctx : Context) (d : NotificationData) : Dialog :=
  {| image := if truthy_opt (displayImage ctx d) then displayImage ctx d else None;
     heading := title d;
     paragraph := bodyText d;
     quote := if truthy (motivationalText ctx)
              then Some (motivationalText ctx) else None |}.

(** What the component returns: [null], or the presence wrapper around the
    dialog, which is there only while [isOpen]. *)
Inductive Rendered :=
| Null
| Presence (child : option Dialog).

Definition render (ctx : Context) (s : State) : Rendered :=
  match notificationData s with
  | None => Null
  | Some d => Presence (if isOpen s then Some (dialog ctx d) else None)
  end.

(* ================================================================== *)
(** ** Reference definitions

    These follow the wording of the specification, not the code; the
    theorems below compare them with the code. *)

Module Spec.

(** [s] with the first occurrence of [pat] removed. *)
Definition remove_first (pat s : jsstring) : jsstring :=
  match split_first pat s with
  | Some (before, after) => before ++ after
  | None => s
  end.

(** [s] with the first occurrence of [pat] replaced by the text [by_text],
    taken literally. *)
Definition substitute_first (pat by_text s : jsstring) : jsstring :=
  match split_first pat s with
  | Some (before, after) => before ++ by_text ++ after
  | None => s
  end.

(** The body text as the specification words it: the placeholder replaced
    by the application name, or by the default when the name is absent. *)
Definition body_with_app_name (d : NotificationData) : jsstring :=
  substitute_first (lit "{app}")
    (match appName d with Some a => a | None => lit "This app" end)
    (body d).

(** A popup is on screen: there is notification data and the dialog is
    open. *)
Definition popup_showing (s : State) : bool :=
  isOpen s && match notificationData s with Some _ => true | None => false end.

(** One of the sequences [$$], [$&], [$`], [$'] occurs in the text. *)
Fixpoint has_dollar_pattern (a : jsstring) : bool :=
  match a with
  | [] => false
  | c :: r =>
      match r with
      | [] => false
      | c2 :: _ =>
          ((c =? dollar) &&
           ((c2 =? 36) || (c2 =? 38) || (c2 =? 96) || (c2 =? 39)))
          || has_dollar_pattern r
      end
  end.

(** Nothing has been shown yet: no data, and no application recorded. *)
Definition fresh (s : State) : Prop :=
  notificationData s = None /\ lastShownAppId s = None.

(** Whether a trace contains a [show-focus-popup] event. *)
Definition has_show (tr : list Occurrence) : bool :=
  existsb (fun o => match event o with ShowFocusPopup _ => true | _ => false end) tr.

End Spec.
Import Spec.

(** ** Sample data *)

Definition no_context : Context := {| customImage := None; customText := None |}.

Definition show_detail (ttl bdy id : string) (app : option string) : ShowDetail :=
  {| d_title := lit ttl; d_body := lit bdy; d_notificationId := lit id;
     d_appName := option_map lit app; d_mediaType := None;
     d_mediaContent := None |}.

Definition at_ (t : N) (e : Event) : Occurrence := {| at_time := t; event := e |}.

Definition twitter_detail : ShowDetail :=
  show_detail "Blocked" "{app} is not allowed" "focus-mode-twitter-1001"
    (Some "Twitter"%string).

(** The notification data of a popup for the application called [a]. *)
Definition named (a : string) : NotificationData :=
  {| title := lit "Blocked"; body := lit "{app} is not allowed";
     notificationId := lit "focus-mode-x-1"; appName := Some (lit a);
     mediaContent := None |}.

Definition youtube_detail : ShowDetail :=
  {| d_title := lit "Blocked"; d_body := lit "{app} is not allowed";
     d_notificationId := lit "focus-mode-youtube-1002";
     d_appName := Some (lit "YouTube"); d_mediaType := Some (lit "image");
     d_mediaContent := Some (lit "https://example.org/event.png") |}.

Definition with_image : Context :=
  {| customImage := Some (lit "data:image/png;base64,AAAA");
     customText := None |}.

Definition with_quote : Context :=
  {| customImage := None;
     customText := Some (systemMessage ++ lit "  Stay on track!  ") |}.

(** The popup of [twitter_detail] on screen, its image loaded. *)
Definition twitter_open : State :=
  {| isOpen := true;
     notificationData := Some (assemble no_context twitter_detail);
     isImageLoaded := true;
     lastShownAppId := Some (lit "twitter");
     timers := [8000] |}.

(* ================================================================== *)
(** ** Listener closures and their registration *)

(** The listener of [show-focus-popup] as the closure it is: it reads
    [customImage] and [lastShownAppId] from the render it was created in
    ([seen_ctx], [seen]), and its setters, which all set a value, act on
    the current state [s]. *)
Definition showListener (seen_ctx : Context) (seen : State) (now : N)
    (detail : ShowDetail) (s : State) : State * list Signal :=
  if is_duplicate detail seen then (s, [])
  else
    let s1 := if truthy_opt (currentAppId detail)
              then setLastShownAppId (currentAppId detail) s else s in
    let s2 := setNotificationData (Some (assemble seen_ctx detail)) s1 in
    let s3 := setIsOpen true s2 in
    let s4 := setIsImageLoaded false s3 in
    let s5 := setTimeout now auto_dismiss_delay s4 in
    (s5, [FocusPopupDisplayed (d_notificationId detail) now]).

(** The two event types the component listens to. *)
Inductive EventType :=
| show_focus_popup
| notification_dismissed.

Definition event_type_eqb (a b : EventType) : bool :=
  match a, b with
  | show_focus_popup, show_focus_popup => true
  | notification_dismissed, notification_dismissed => true
  | _, _ => false
  end.

(** A registered listener: the event type and the callback, a closure
    named by the number of the effect run that created it. *)
Definition Listener := (EventType * N)%type.

Definition listener_eqb (a b : Listener) : bool :=
  event_type_eqb (fst a) (fst b) && (snd a =? snd b).

(** [window.addEventListener]: a callback already registered for the type
    is not registered again. *)
Definition addEventListener (l : Listener) (reg : list Listener) : list Listener :=
  if existsb (listener_eqb l) reg then reg else reg ++ [l].

(** [window.removeEventListener]. *)
Fixpoint removeEventListener (l : Listener) (reg : list Listener) : list Listener :=
  match reg with
  | [] => []
  | x :: r => if listener_eqb l x then r else x :: removeEventListener l r
  end.

(** The body of the effect, for the closures of effect run [g]. *)
Definition subscribe (g : N) (reg : list Listener) : list Listener :=
  addEventListener (notification_dismissed, g)
    (addEventListener (show_focus_popup, g) reg).

(** The function the effect returns. *)
Definition cleanup (g : N) (reg : list Listener) : list Listener :=
  removeEventListener (notification_dismissed, g)
    (removeEventListener (show_focus_popup, g) reg).

(** The effect runs again for every render whose dependencies changed:
    the cleanup of the run before, then the body.  [g] is the run in
    force, [later] the runs that follow. *)
Fixpoint rerun (g : N) (later : list N) (reg : list Listener) : list Listener :=
  match later with
  | [] => reg
  | g' :: r => rerun g' r (subscribe g' (cleanup g reg))
  end.

(** The effect run in force after [later]. *)
Definition current_run (g : N) (later : list N) : N := last later g.

(* ================================================================== *)
(** ** Further reference definitions *)

(** A hyphen immediately followed by a digit occurs in the text. *)
Fixpoint has_hyphen_digit (s : jsstring) : bool :=
  match s with
  | [] => false
  | c1 :: r =>
      match r with
      | [] => false
      | c2 :: _ => ((c1 =? hyphen) && is_digit c2) || has_hyphen_digit r
      end
  end.

(** No line terminator in the text. *)
Definition one_line (s : jsstring) : bool :=
  forallb (fun c => negb (is_line_terminator c)) s.

(** What holds of a recorded application identifier. *)
Definition recorded_app_id_ok (s : State) : Prop :=
  match lastShownAppId s with
  | None => True
  | Some X =>
      X <> [] /\ one_line X = true /\ has_hyphen_digit X = false /\
      notificationData s <> None
  end.

(** The identifiers of the show signals of a trace. *)
Definition shown_ids (tr : list Occurrence) : list jsstring :=
  flat_map (fun o => match event o with
                     | ShowFocusPopup d => [d_notificationId d]
                     | _ => []
                     end) tr.

(** The identifier of the notification data held, if any. *)
Definition held_id (s : State) : list jsstring :=
  match notificationData s with
  | Some d => [notificationId d]
  | None => []
  end.

(** The due times of the timers started for the acknowledged popups. *)
Definition due_times (out : list Signal) : list N :=
  flat_map (fun sg => match sg with
                      | FocusPopupDisplayed _ t => [t + auto_dismiss_delay]
                      | NotificationDismissed _ => []
                      end) out.

Definition no_timer_runs (tr : list Occurrence) : bool :=
  forallb (fun o => match event o with TimerFire _ => false | _ => true end) tr.

(** The events that can dispatch a signal. *)
Definition may_dispatch (o : Occurrence) : bool :=
  match event o with
  | ShowFocusPopup _ | ClickDismiss => true
  | _ => false
  end.

(** Two states that differ at most in [isImageLoaded]. *)
Definition same_but_image_loaded (a b : State) : Prop :=
  isOpen a = isOpen b /\ notificationData a = notificationData b /\
  lastShownAppId a = lastShownAppId b /\ timers a = timers b.

Definition is_image_event (o : Occurrence) : bool :=
  match event o with
  | ImageLoad | ImageError => true
  | _ => false
  end.

(** The trace without the image callbacks. *)
Definition without_image_events (tr : list Occurrence) : list Occurrence :=
  filter (fun o => negb (is_image_event o)) tr.

(** No callback of effect run [g] is registered. *)
Definition not_registered (g : N) (reg : list Listener) : bool :=
  forallb (fun l => negb (snd l =? g)) reg.

(* ================================================================== *)
(** * Properties *)

(** ** The pattern on sample identifiers *)

Example match_twitter :
  match_app_id (lit "focus-mode-twitter-1001") = Some (lit "twitter").
Proof. reflexivity. Qed.

Example match_hyphenated :
  match_app_id (lit "focus-mode-my-app-2-3") = Some (lit "my-app").
Proof. reflexivity. Qed.

Example match_empty_group :
  match_app_id (lit "focus-mode--42") = Some [].
Proof. reflexivity. Qed.

Example match_not_anchored :
  match_app_id (lit "x-focus-mode-a-1z") = Some (lit "a").
Proof. reflexivity. Qed.

Example match_none :
  match_app_id (lit "reminder-17") = None.
Proof. reflexivity. Qed.

Example match_no_digits :
  match_app_id (lit "focus-mode-twitter-") = None.
Proof. reflexivity. Qed.

(** ** Strings *)

Lemma str_eqb_refl (a : jsstring) : str_eqb a a = true.
Proof.
  induction a as [|x a IH]; simpl; [reflexivity|].
  now rewrite N.eqb_refl, IH.
Qed.

Lemma str_eqb_eq (a b : jsstring) : str_eqb a b = true <-> a = b.
Proof.
  split.
  - revert b; induction a as [|x a IH]; intros [|y b]; simpl; try discriminate; auto.
    intros H; apply andb_true_iff in H as [Hx Hr].
    apply N.eqb_eq in Hx; subst; f_equal; auto.
  - intros ->; apply str_eqb_refl.
Qed.

Lemma str_eqb_neq (a b : jsstring) : str_eqb a b = false <-> a <> b.
Proof.
  split.
  - intros H E; apply str_eqb_eq in E; congruence.
  - intros H; destruct (str_eqb a b) eqn:E; [|reflexivity].
    apply str_eqb_eq in E; contradiction.
Qed.

Lemma truthy_nonempty (a : jsstring) : truthy a = true <-> a <> [].
Proof. destruct a; simpl; split; congruence. Qed.

Lemma replace_by_empty (s pat : jsstring) : replace s pat [] = remove_first pat s.
Proof.
  unfold replace, remove_first.
  destruct (split_first pat s) as [[b a]|]; reflexivity.
Qed.

Lemma split_first_sound (p s b a : jsstring) :
  split_first p s = Some (b, a) -> s = b ++ p ++ a.
Proof.
  revert b a; induction s as [|c s IH]; intros b a; simpl.
  - destruct p; simpl; [|discriminate].
    intros H; now inversion H.
  - destruct (strip_prefix p (c :: s)) as [r|] eqn:E.
    + intros H; inversion H; subst; clear H; simpl.
      revert E; generalize (c :: s) as u; clear.
      induction p as [|x p IH]; intros u; simpl.
      * destruct u; intros H; now inversion H.
      * destruct u as [|y u]; [discriminate|].
        destruct (x =? y) eqn:Exy; [|discriminate].
        apply N.eqb_eq in Exy; subst; intros H; f_equal; auto.
    + destruct (split_first p s) as [[b' a']|]; [|discriminate].
      intros H; inversion H; subst; simpl; f_equal; auto.
Qed.

Lemma strip_prefix_sound (p s r : jsstring) :
  strip_prefix p s = Some r -> s = p ++ r.
Proof.
  revert s; induction p as [|x p IH]; intros s; simpl.
  - destruct s; intros H; now inversion H.
  - destruct s as [|y s]; [discriminate|].
    destruct (x =? y) eqn:E; [|discriminate].
    apply N.eqb_eq in E; subst; intros H; f_equal; auto.
Qed.

(** ** The pattern, in general *)

Lemma lazy_group_sound (s acc g : jsstring) :
  lazy_group acc s = Some g ->
  exists taken d rest,
    s = taken ++ hyphen :: d :: rest /\
    g = rev acc ++ taken /\
    is_digit d = true /\
    forallb (fun c => negb (is_line_terminator c)) taken = true.
Proof.
  revert acc; induction s as [|c r IH]; intros acc; cbn [lazy_group].
  - cbn; discriminate.
  - destruct (tail_matches (c :: r)) eqn:Et.
    + intros H; inversion H; subst; clear H.
      destruct r as [|d rest]; [discriminate|].
      cbn in Et; apply andb_true_iff in Et as [Eh Ed].
      apply N.eqb_eq in Eh; subst c.
      exists [], d, rest; rewrite app_nil_r; auto.
    + destruct (is_line_terminator c) eqn:El; [discriminate|].
      intros H; apply IH in H as (taken & d & rest & Hs & Hg & Hd & Hall).
      exists (c :: taken), d, rest; subst; cbn [rev forallb app].
      rewrite El, <- app_assoc; cbn; auto.
Qed.

(** A match yields a group that does occur in the identifier, between the
    literal prefix and a hyphen followed by a digit, and holds no line
    terminator. *)
Lemma match_app_id_sound (id g : jsstring) :
  match_app_id id = Some g ->
  exists before d rest,
    id = before ++ prefix ++ g ++ hyphen :: d :: rest /\
    is_digit d = true /\
    forallb (fun c => negb (is_line_terminator c)) g = true.
Proof.
  induction id as [|c r IH]; cbn [match_app_id].
  - cbn; discriminate.
  - destruct (match_here (c :: r)) as [g'|] eqn:E.
    + intros H; inversion H; subst; clear H.
      unfold match_here in E.
      destruct (strip_prefix prefix (c :: r)) as [u|] eqn:Ep; [|discriminate].
      apply strip_prefix_sound in Ep.
      apply lazy_group_sound in E as (taken & d & rest & Hs & Hg & Hd & Hall).
      cbn [rev app] in Hg; subst g u.
      exists [], d, rest; rewrite Ep; auto.
    + intros H; apply IH in H as (before & d & rest & Hs & Hd & Hall).
      exists (c :: before), d, rest; subst; auto.
Qed.

(** ** State setters and handlers *)

Lemma is_duplicate_true (detail : ShowDetail) (s : State) :
  is_duplicate detail s = true <->
  exists X, match_app_id (d_notificationId detail) = Some X /\ X <> [] /\
            lastShownAppId s = Some X.
Proof.
  unfold is_duplicate, currentAppId.
  destruct (match_app_id (d_notificationId detail)) as [X|]; simpl.
  - split.
    + intros H; apply andb_true_iff in H as [Ht He].
      apply truthy_nonempty in Ht.
      destruct (lastShownAppId s) as [Y|]; simpl in He; [|discriminate].
      apply str_eqb_eq in He; subst; eauto.
    + intros (Y & E & Hne & HL); inversion E; subst; rewrite HL; simpl.
      apply andb_true_iff; split; [now apply truthy_nonempty | apply str_eqb_refl].
  - split; [discriminate|]. intros (Y & E & _); discriminate.
Qed.

Lemma show_not_duplicate (ctx : Context) (now : N) (detail : ShowDetail) (s : State) :
  is_duplicate detail s = false ->
  handleShowFocusPopup ctx now detail s =
    ({| isOpen := true;
        notificationData := Some (assemble ctx detail);
        isImageLoaded := false;
        lastShownAppId := if truthy_opt (currentAppId detail)
                          then currentAppId detail else lastShownAppId s;
        timers := timers s ++ [now + auto_dismiss_delay] |},
     [FocusPopupDisplayed (d_notificationId detail) now]).
Proof.
  intros H; unfold handleShowFocusPopup; rewrite H.
  destruct (truthy_opt (currentAppId detail)); reflexivity.
Qed.

Lemma show_duplicate (ctx : Context) (now : N) (detail : ShowDetail) (s : State)
    (X : jsstring) :
  X <> [] ->
  match_app_id (d_notificationId detail) = Some X ->
  lastShownAppId s = Some X ->
  handleShowFocusPopup ctx now detail s = (s, []).
Proof.
  intros Hne Hm HL; unfold handleShowFocusPopup.
  replace (is_duplicate detail s) with true; [reflexivity|].
  symmetry; apply is_duplicate_true; eauto.
Qed.


(** ** C1: suppression of a repeated popup *)




(** ** C2: a dismissal signalled from elsewhere *)

(** C2, as amended.  The listener of [notification-dismissed] closes the
    popup and clears [lastShownAppId] exactly when notification data is
    present and its [notificationId] is the signalled one, whether the
    dialog is open or has been closed already; the other cells and the
    timers are kept.  With another identifier, or without notification
    data, the state is unchanged.  Nothing is dispatched. *)
Theorem dismissed_elsewhere (ctx : Context) (t : N) (id : jsstring) (s : State) :
  (forall d, notificationData s = Some d -> notificationId d = id ->
             step ctx s (at_ t (DismissedElsewhere id)) =
             ({| isOpen := false;
                 notificationData := notificationData s;
                 isImageLoaded := isImageLoaded s;
                 lastShownAppId := None;
                 timers := timers s |}, [])) /\
  (forall d, notificationData s = Some d -> notificationId d <> id ->
             step ctx s (at_ t (DismissedElsewhere id)) = (s, [])) /\
  (notificationData s = None ->
   step ctx s (at_ t (DismissedElsewhere id)) = (s, [])).
Proof.
  unfold step, handleNotificationDismissed; destruct s as [o nd il la tm]; simpl.
  repeat split.
  - intros d -> <-; now rewrite str_eqb_refl.
  - intros d -> Hid.
    replace (str_eqb id (notificationId d)) with false; [reflexivity|].
    symmetry; apply str_eqb_neq; congruence.
  - now intros ->.
Qed.

Lemma dismissed_elsewhere_witness :
  step no_context twitter_open
    (at_ 1200 (DismissedElsewhere (lit "focus-mode-twitter-1001"))) =
  ({| isOpen := false;
      notificationData := Some (assemble no_context twitter_detail);
      isImageLoaded := true;
      lastShownAppId := None;
      timers := [8000] |}, []).
Proof.
  exact (proj1 (dismissed_elsewhere no_context 1200
                  (lit "focus-mode-twitter-1001") twitter_open)
               (assemble no_context twitter_detail) eq_refl eq_refl).
Defined.

(** C2 as stated fails once the timer has closed the dialog: no popup is on
    screen, and the matching signal still changes the state, clearing
    [lastShownAppId]. *)
Lemma dismissed_elsewhere_after_auto_close :
  let tr := [at_ 0 (ShowFocusPopup twitter_detail); at_ 8000 (TimerFire 8000)] in
  let s := fst (run no_context initial tr) in
  let s' := fst (step no_context s
                   (at_ 9000 (DismissedElsewhere (lit "focus-mode-twitter-1001")))) in
  admissible no_context 0 initial tr = true /\
  popup_showing s = false /\
  lastShownAppId s = Some (lit "twitter") /\
  lastShownAppId s' = None /\
  s' <> s.
Proof.
  cbv zeta; repeat split; try reflexivity.
  vm_compute; discriminate.
Qed.

(** ** C3: the timer of a superseded popup *)

Lemma pending_last (due : N) (q r : list N) :
  existsb (N.eqb due) (q ++ due :: r) = true.
Proof.
  rewrite existsb_app; simpl; rewrite N.eqb_refl.
  now rewrite orb_true_r.
Qed.

(** C3.  Let a first show signal be displayed at [t1] and a second one at
    [t2], less than 8000 ms later.  The timer the first signal started is
    still pending once the second popup is displayed, and the event loop
    can run it at [t1 + 8000], no later than the second popup's own timer
    (earlier when [t1 < t2]): it closes the dialog while the notification
    data is that of the second signal. *)
Theorem older_timer_closes_newer_popup (ctx : Context) (s : State)
    (t1 t2 : N) (d1 d2 : ShowDetail) :
  is_duplicate d1 s = false ->
  is_duplicate d2 (fst (handleShowFocusPopup ctx t1 d1 s)) = false ->
  t1 <= t2 -> t2 < t1 + 8000 ->
  let due1 := t1 + auto_dismiss_delay in
  let shows := [at_ t1 (ShowFocusPopup d1); at_ t2 (ShowFocusPopup d2)] in
  let tr := shows ++ [at_ due1 (TimerFire due1)] in
  let s2 := fst (run ctx s shows) in
  let s3 := fst (run ctx s tr) in
  admissible ctx t1 s tr = true /\
  pending due1 s2 = true /\
  isOpen s2 = true /\
  notificationData s2 = Some (assemble ctx d2) /\
  due1 <= t2 + auto_dismiss_delay /\
  (t1 < t2 -> due1 < t2 + auto_dismiss_delay) /\
  isOpen s3 = false /\
  notificationData s3 = Some (assemble ctx d2) /\
  render ctx s3 = Presence None.
Proof.
  intros H1 H2 Hle Hlt; cbv zeta.
  cbn [app run admissible]; unfold step; cbn [event at_time at_ fst].
  rewrite (show_not_duplicate ctx t1 d1 s H1) in *; cbn [fst] in *.
  rewrite (show_not_duplicate ctx t2 d2 _ H2); cbn [fst].
  assert (Hp : forall a b c l,
             pending (t1 + auto_dismiss_delay)
               {| isOpen := a; notificationData := b; isImageLoaded := c;
                  lastShownAppId := l;
                  timers := (timers s ++ [t1 + auto_dismiss_delay])
                              ++ [t2 + auto_dismiss_delay] |} = true).
  { intros; unfold pending; cbn [timers].
    rewrite <- app_assoc; apply pending_last. }
  cbn [timers] in *; rewrite Hp; cbn [fst isOpen notificationData].
  unfold render, auto_dismiss_delay; cbn.
  assert (E1 : (t1 <=? t2) = true) by (apply N.leb_le; lia).
  assert (E2 : (t2 <=? t1 + 8000) = true) by (apply N.leb_le; lia).
  rewrite ?N.leb_refl, E1, E2.
  repeat split; try reflexivity; lia.
Qed.

Lemma older_timer_closes_newer_popup_witness :
  let tr := [at_ 0 (ShowFocusPopup twitter_detail);
             at_ 3000 (ShowFocusPopup youtube_detail);
             at_ 8000 (TimerFire 8000)] in
  admissible no_context 0 initial tr = true /\
  isOpen (fst (run no_context initial tr)) = false /\
  notificationData (fst (run no_context initial tr))
    = Some (assemble no_context youtube_detail).
Proof.
  destruct (older_timer_closes_newer_popup no_context initial 0 3000
              twitter_detail youtube_detail eq_refl eq_refl
              ltac:(lia) ltac:(lia))
    as (Ha & _ & _ & _ & _ & _ & Ho & Hd & _).
  exact (conj Ha (conj Ho Hd)).
Defined.

(** ** C4: the image of the context comes first *)

Lemma or_else_present (img : jsstring) (b : option jsstring) :
  img <> [] -> or_else (Some img) b = Some img.
Proof. intros H; unfold or_else; simpl. apply truthy_nonempty in H; now rewrite H. Qed.

Lemma or_else_absent (a b : option jsstring) :
  truthy_opt a = false -> or_else a b = b.
Proof. intros H; unfold or_else; now rewrite H. Qed.



(** ** C5: the motivational quote *)

Lemma nothing_beyond_system_message (t : jsstring) :
  truthy t && negb (str_eqb t systemMessage) = false ->
  trim (remove_first systemMessage t) = [].
Proof.
  intros H; apply andb_false_iff in H as [H|H].
  - destruct t; [reflexivity | discriminate].
  - apply negb_false_iff, str_eqb_eq in H; subst; reflexivity.
Qed.

(** C5.  For every [customText], the dialog has the quote block if and only
    if [customText] is present and what is left of it, once the first
    occurrence of the system message is removed and the white space around
    the rest is trimmed, is not empty; the text of the block is that
    rest. *)
Theorem motivational_quote (ctx : Context) (d : NotificationData) :
  (quote (dialog ctx d) <> None <->
   exists t, customText ctx = Some t /\
             trim (remove_first systemMessage t) <> []) /\
  (forall q, quote (dialog ctx d) = Some q ->
   exists t, customText ctx = Some t /\
             q = trim (remove_first systemMessage t)).
Proof.
  unfold dialog, motivationalText; cbn [quote].
  destruct (customText ctx) as [t|].
  - destruct (truthy t && negb (str_eqb t systemMessage)) eqn:E.
    + rewrite replace_by_empty.
      destruct (trim (remove_first systemMessage t)) as [|c r] eqn:Et; cbn [truthy].
      * split; [split|]; [congruence | | discriminate].
        intros (t' & Ht & Hne); inversion Ht; subst; congruence.
      * split; [split|].
        -- intros _; exists t; split; [reflexivity | rewrite Et; discriminate].
        -- discriminate.
        -- intros q Hq; inversion Hq; subst; exists t; auto.
    + cbn [truthy]; pose proof (nothing_beyond_system_message t E) as Hn.
      split; [split|]; [congruence | | discriminate].
      intros (t' & Ht & Hne); inversion Ht; subst; congruence.
  - cbn [truthy]; split; [split|]; [congruence | | discriminate].
    intros (t' & Ht & _); discriminate.
Qed.

Lemma motivational_quote_witness :
  quote (dialog with_quote (assemble with_quote twitter_detail))
    = Some (lit "Stay on track!") /\
  exists t, customText with_quote = Some t /\
            lit "Stay on track!" = trim (remove_first systemMessage t).
Proof.
  split; [reflexivity|].
  exact (proj2 (motivational_quote with_quote (assemble with_quote twitter_detail))
           (lit "Stay on track!") eq_refl).
Defined.

(** ** C6: the user dismisses the popup *)

(** C6.  In every state that holds notification data [d], a click on the
    close icon or on the Dismiss button sets [isOpen] to false, resets
    [lastShownAppId], keeps the other cells and the timers, and dispatches
    exactly one signal, [notification-dismissed] with the [notificationId]
    of [d]. *)
Theorem user_dismiss (ctx : Context) (t : N) (s : State) (d : NotificationData) :
  notificationData s = Some d ->
  step ctx s (at_ t ClickDismiss) =
    ({| isOpen := false;
        notificationData := Some d;
        isImageLoaded := isImageLoaded s;
        lastShownAppId := None;
        timers := timers s |},
     [NotificationDismissed (notificationId d)]).
Proof.
  destruct s as [o nd il la tm]; cbn [notificationData]; intros ->.
  unfold step, handleDismiss, handleNotificationDismissed; cbn.
  now rewrite str_eqb_refl.
Qed.

Lemma user_dismiss_witness :
  step no_context twitter_open (at_ 2500 ClickDismiss) =
    ({| isOpen := false;
        notificationData := Some (assemble no_context twitter_detail);
        isImageLoaded := true;
        lastShownAppId := None;
        timers := [8000] |},
     [NotificationDismissed (lit "focus-mode-twitter-1001")]).
Proof.
  exact (user_dismiss no_context 2500 twitter_open
           (assemble no_context twitter_detail) eq_refl).
Defined.

(** ** C7: the auto-dismiss timer *)

(** C7.  In every state, the callback of the 8000 ms timer sets [isOpen]
    to false and leaves [notificationData], [lastShownAppId] and
    [isImageLoaded] as they are; the step in which a pending timer runs
    does the same and dispatches no signal. *)
Theorem auto_dismiss_only_closes (ctx : Context) (t due : N) (s : State) :
  auto_dismiss s =
    {| isOpen := false;
       notificationData := notificationData s;
       isImageLoaded := isImageLoaded s;
       lastShownAppId := lastShownAppId s;
       timers := timers s |} /\
  (pending due s = true ->
   step ctx s (at_ t (TimerFire due)) =
     ({| isOpen := false;
         notificationData := notificationData s;
         isImageLoaded := isImageLoaded s;
         lastShownAppId := lastShownAppId s;
         timers := remove_timer due (timers s) |}, [])).
Proof.
  split; [reflexivity|].
  intros H; unfold step; cbn [event at_]; now rewrite H.
Qed.

Lemma auto_dismiss_only_closes_witness :
  step no_context twitter_open (at_ 8000 (TimerFire 8000)) =
    ({| isOpen := false;
        notificationData := Some (assemble no_context twitter_detail);
        isImageLoaded := true;
        lastShownAppId := Some (lit "twitter");
        timers := [] |}, []).
Proof.
  exact (proj2 (auto_dismiss_only_closes no_context 8000 8000 twitter_open) eq_refl).
Defined.

(** ** C8: identifiers that do not match the pattern *)

(** C8.  For every show signal whose [notificationId] does not match the
    pattern, in every state: the popup is shown ([isOpen] true,
    [isImageLoaded] false, a new timer), the notification data holds the
    title, the body, the identifier and the application name of the signal
    and, as media content, the context image if there is one and the
    signal's otherwise; [lastShownAppId] is left as it was, and
    [focus-popup-displayed] is dispatched for the signal's identifier. *)
Theorem unmatched_id_is_always_shown (ctx : Context) (now : N)
    (detail : ShowDetail) (s : State) :
  match_app_id (d_notificationId detail) = None ->
  handleShowFocusPopup ctx now detail s =
    ({| isOpen := true;
        notificationData :=
          Some {| title := d_title detail;
                  body := d_body detail;
                  notificationId := d_notificationId detail;
                  appName := d_appName detail;
                  mediaContent :=
                    if truthy_opt (customImage ctx)
                    then customImage ctx else d_mediaContent detail |};
        isImageLoaded := false;
        lastShownAppId := lastShownAppId s;
        timers := timers s ++ [now + 8000] |},
     [FocusPopupDisplayed (d_notificationId detail) now]).
Proof.
  intros H.
  assert (Hc : currentAppId detail = None) by exact H.
  rewrite show_not_duplicate; [now rewrite Hc|].
  unfold is_duplicate; now rewrite Hc.
Qed.

Lemma unmatched_id_is_always_shown_witness :
  handleShowFocusPopup no_context 40
    {| d_title := lit "Reminder"; d_body := lit "Back to work";
       d_notificationId := lit "reminder-17"; d_appName := Some (lit "Notes");
       d_mediaType := Some (lit "image");
       d_mediaContent := Some (lit "https://example.org/desk.png") |}
    twitter_open =
    ({| isOpen := true;
        notificationData :=
          Some {| title := lit "Reminder"; body := lit "Back to work";
                  notificationId := lit "reminder-17";
                  appName := Some (lit "Notes");
                  mediaContent := Some (lit "https://example.org/desk.png") |};
        isImageLoaded := false;
        lastShownAppId := Some (lit "twitter");
        timers := [8000; 8040] |},
     [FocusPopupDisplayed (lit "reminder-17") 40]).
Proof.
  exact (unmatched_id_is_always_shown no_context 40
           {| d_title := lit "Reminder"; d_body := lit "Back to work";
              d_notificationId := lit "reminder-17";
              d_appName := Some (lit "Notes");
              d_mediaType := Some (lit "image");
              d_mediaContent := Some (lit "https://example.org/desk.png") |}
           twitter_open eq_refl).
Defined.

(** ** C9: the body text *)

Lemma GetSubstitution_literal (m b a t : jsstring) :
  has_dollar_pattern t = false -> GetSubstitution m b a t = t.
Proof.
  induction t as [|c t IH]; [reflexivity|].
  intros H; cbn [GetSubstitution].
  destruct t as [|c2 t2].
  - now destruct (c =? dollar).
  - cbn [has_dollar_pattern] in H; apply orb_false_iff in H as [Hp Hr].
    specialize (IH Hr).
    destruct (c =? dollar) eqn:Ec; [|now rewrite IH].
    cbn [andb] in Hp.
    apply orb_false_iff in Hp as [Hp H39].
    apply orb_false_iff in Hp as [Hp H96].
    apply orb_false_iff in Hp as [H36 H38].
    rewrite H36, H38, H96, H39; now rewrite IH.
Qed.

Lemma replace_literal (s pat t : jsstring) :
  has_dollar_pattern t = false -> replace s pat t = substitute_first pat t s.
Proof.
  intros H; unfold replace, substitute_first.
  destruct (split_first pat s) as [[b a]|]; [|reflexivity].
  now rewrite GetSubstitution_literal.
Qed.

(** C9, as amended.  For every notification data whose [appName] holds none
    of the sequences [$$], [$&], [$`] and [$'] (a dollar sign followed by
    anything else is allowed), the body text is [body] with the first
    occurrence of [{app}] replaced by [appName] when it is present and not
    empty, and by "This app" when it is absent or empty.  For the body
    "{app} is not allowed" and the name "Twitter" the text is "Twitter is
    not allowed". *)
Theorem body_text_substitution :
  (forall d a,
      appName d = Some a -> a <> [] -> has_dollar_pattern a = false ->
      bodyText d = substitute_first (lit "{app}") a (body d)) /\
  (forall d,
      appName d = None \/ appName d = Some [] ->
      bodyText d = substitute_first (lit "{app}") (lit "This app") (body d)) /\
  paragraph (dialog no_context (assemble no_context twitter_detail))
    = lit "Twitter is not allowed".
Proof.
  split; [|split; [|reflexivity]].
  - intros d a Ha Hne Hd; unfold bodyText; rewrite Ha; cbn [or_default].
    apply truthy_nonempty in Hne; rewrite Hne.
    now apply replace_literal.
  - intros d [Ha|Ha]; unfold bodyText; rewrite Ha; cbn [or_default truthy];
      now apply replace_literal.
Qed.

Lemma body_text_substitution_witness :
  bodyText (named "A$AP Rocky") = lit "A$AP Rocky is not allowed" /\
  bodyText (named "US$") = lit "US$ is not allowed" /\
  bodyText (assemble no_context
              (show_detail "Blocked" "Close {app} now" "focus-mode-x-1" None))
    = lit "Close This app now".
Proof.
  split; [|split].
  - exact (proj1 body_text_substitution (named "A$AP Rocky")
             (lit "A$AP Rocky") eq_refl ltac:(discriminate) eq_refl).
  - exact (proj1 body_text_substitution (named "US$")
             (lit "US$") eq_refl ltac:(discriminate) eq_refl).
  - exact (proj1 (proj2 body_text_substitution)
             (assemble no_context
                (show_detail "Blocked" "Close {app} now" "focus-mode-x-1" None))
             (or_introl eq_refl)).
Defined.

(** C9 as stated fails in two ways.  An [appName] with dollar signs is not
    inserted as it is: [$$] becomes one dollar sign and [$&] becomes the
    placeholder.  And an empty [appName], which is present, gives "This
    app". *)
Lemma body_text_is_not_literal_substitution :
  bodyText (named "Ca$$h") = lit "Ca$h is not allowed" /\
  body_with_app_name (named "Ca$$h") = lit "Ca$$h is not allowed" /\
  bodyText (named "$&") = lit "{app} is not allowed" /\
  body_with_app_name (named "$&") = lit "$& is not allowed" /\
  bodyText (named "") = lit "This app is not allowed" /\
  body_with_app_name (named "") = lit " is not allowed" /\
  bodyText (named "Ca$$h") <> body_with_app_name (named "Ca$$h") /\
  bodyText (named "") <> body_with_app_name (named "").
Proof.
  cbv zeta; repeat split; try reflexivity; vm_compute; discriminate.
Qed.

(** ** C10: notification data is never cleared *)

Lemma run_cons (ctx : Context) (s : State) (o : Occurrence) (r : list Occurrence) :
  fst (run ctx s (o :: r)) = fst (run ctx (fst (step ctx s o)) r).
Proof.
  cbn [run]; destruct (step ctx s o) as [s1 out1]; cbn [fst].
  now destruct (run ctx s1 r).
Qed.

Lemma render_null (ctx : Context) (s : State) :
  render ctx s = Null <-> notificationData s = None.
Proof.
  unfold render; destruct (notificationData s); split; congruence.
Qed.

Lemma step_keeps_data (ctx : Context) (s : State) (o : Occurrence) :
  notificationData s <> None ->
  notificationData (fst (step ctx s o)) <> None.
Proof.
  intros H; destruct o as [t e]; unfold step; cbn [event at_time].
  destruct e as [detail|id| |due| | |b]; cbn [fst]; try exact H.
  - unfold handleShowFocusPopup.
    destruct (is_duplicate detail s); cbn [fst]; [exact H|].
    cbn; discriminate.
  - unfold handleNotificationDismissed.
    destruct (notificationData s) as [d|] eqn:E; [|congruence].
    destruct (str_eqb id (notificationId d));
      cbn [notificationData setLastShownAppId setIsOpen]; congruence.
  - unfold handleDismiss, handleNotificationDismissed.
    destruct (notificationData s) as [d|] eqn:E; cbn [fst]; [|congruence].
    destruct (str_eqb (notificationId d) (notificationId d));
      cbn [notificationData setLastShownAppId setIsOpen]; congruence.
  - destruct (pending due s); exact H.
Qed.

Lemma run_keeps_data (ctx : Context) (tr : list Occurrence) (s : State) :
  notificationData s <> None ->
  notificationData (fst (run ctx s tr)) <> None.
Proof.
  revert s; induction tr as [|o r IH]; intros s H; [exact H|].
  rewrite run_cons; apply IH; now apply step_keeps_data.
Qed.

Lemma fresh_not_duplicate (detail : ShowDetail) (s : State) :
  fresh s -> is_duplicate detail s = false.
Proof.
  intros [_ HL]; unfold is_duplicate; rewrite HL.
  destruct (currentAppId detail); [apply andb_false_r | reflexivity].
Qed.

Lemma step_from_fresh (ctx : Context) (s : State) (o : Occurrence) :
  fresh s ->
  match event o with
  | ShowFocusPopup _ => notificationData (fst (step ctx s o)) <> None
  | _ => fresh (fst (step ctx s o))
  end.
Proof.
  intros Hf; pose proof Hf as [Hd HL].
  destruct o as [t e]; unfold step; cbn [event at_time].
  destruct e as [detail|id| |due| | |b]; cbn [fst].
  - rewrite show_not_duplicate by now apply fresh_not_duplicate.
    cbn; discriminate.
  - unfold handleNotificationDismissed; now rewrite Hd.
  - unfold handleDismiss; rewrite Hd; split; [exact Hd | reflexivity].
  - destruct (pending due s); [split; assumption | exact Hf].
  - split; assumption.
  - split; assumption.
  - split; assumption.
Qed.

Lemma run_from_fresh (ctx : Context) (tr : list Occurrence) (s : State) :
  fresh s ->
  (notificationData (fst (run ctx s tr)) = None <-> has_show tr = false).
Proof.
  revert s; induction tr as [|o r IH]; intros s Hf.
  - destruct Hf as [Hd _]; split; auto.
  - rewrite run_cons; unfold has_show; cbn [existsb].
    pose proof (step_from_fresh ctx s o Hf) as Hs.
    destruct (event o) eqn:E;
      try (cbn [orb]; apply IH; exact Hs).
    cbn [orb]; split; [|discriminate].
    intros Hn; exfalso; revert Hn; now apply run_keeps_data.
Qed.

(** C10.  Once [notificationData] holds a record, it holds one after every
    sequence of events (show signals, dismissals by the user or from
    elsewhere, timers, image callbacks, open changes), so the component no
    longer renders nothing; and from the state on mount, the component
    renders nothing exactly as long as no show signal has arrived. *)
Theorem notification_data_is_never_cleared (ctx : Context) :
  (forall s tr,
      notificationData s <> None ->
      notificationData (fst (run ctx s tr)) <> None /\
      render ctx (fst (run ctx s tr)) <> Null) /\
  (forall tr,
      render ctx (fst (run ctx initial tr)) = Null <-> has_show tr = false).
Proof.
  split.
  - intros s tr H; pose proof (run_keeps_data ctx tr s H) as Hk.
    split; [exact Hk|]. now rewrite render_null.
  - intros tr; rewrite render_null.
    apply run_from_fresh; split; reflexivity.
Qed.

Lemma notification_data_is_never_cleared_witness :
  let tr := [at_ 1000 ClickDismiss;
             at_ 2000 (DismissedElsewhere (lit "focus-mode-twitter-1001"));
             at_ 8000 (TimerFire 8000);
             at_ 9000 (OpenChange false)] in
  notificationData (fst (run no_context twitter_open tr)) <> None /\
  render no_context (fst (run no_context twitter_open tr)) <> Null.
Proof.
  exact (proj1 (notification_data_is_never_cleared no_context) twitter_open _
           ltac:(discriminate)).
Defined.

(* ================================================================== *)
(** * Further properties *)

(** ** Which identifiers the pattern matches, and what it extracts *)

Lemma strip_prefix_app (p r : jsstring) : strip_prefix p (p ++ r) = Some r.
Proof.
  induction p as [|x p IH]; simpl; [now destruct r|].
  now rewrite N.eqb_refl.
Qed.

Lemma match_here_head (w g : jsstring) :
  match_here w = Some g -> match_app_id w = Some g.
Proof. intros H; destruct w; cbn [match_app_id]; now rewrite H. Qed.

Lemma match_app_id_skip (before w : jsstring) :
  match_app_id w <> None -> match_app_id (before ++ w) <> None.
Proof.
  intros H; induction before as [|c b IH]; [exact H|].
  cbn [app match_app_id].
  destruct (match_here (c :: b ++ w)); [discriminate | exact IH].
Qed.

Lemma lazy_group_total (g : jsstring) (d : code_unit) (rest acc : jsstring) :
  one_line g = true -> is_digit d = true ->
  lazy_group acc (g ++ hyphen :: d :: rest) <> None.
Proof.
  intros Hg Hd; revert acc; induction g as [|c g IH]; intros acc.
  - cbn; rewrite Hd; discriminate.
  - cbn [app lazy_group].
    destruct (tail_matches (c :: g ++ hyphen :: d :: rest)); [discriminate|].
    cbn in Hg; apply andb_true_iff in Hg as [Hc Hg].
    apply negb_true_iff in Hc; rewrite Hc; now apply IH.
Qed.

Lemma lazy_group_shortest (s acc g : jsstring) :
  lazy_group acc s = Some g ->
  exists taken rest,
    s = taken ++ rest /\ g = rev acc ++ taken /\
    tail_matches rest = true /\
    one_line taken = true /\ has_hyphen_digit taken = false.
Proof.
  revert acc; induction s as [|c r IH]; intros acc; cbn [lazy_group].
  - cbn; discriminate.
  - destruct (tail_matches (c :: r)) eqn:Et.
    + intros H; inversion H; exists [], (c :: r); rewrite app_nil_r; auto.
    + destruct (is_line_terminator c) eqn:El; [discriminate|].
      intros H; apply IH in H as (taken & rest & Hs & Hg & Hr & Hl & Hh).
      cbn [rev] in Hg; rewrite <- app_assoc in Hg; cbn [app] in Hg.
      exists (c :: taken), rest; cbn [one_line forallb app].
      rewrite El, Hs; repeat split; auto.
      destruct taken as [|c2 t]; [reflexivity|].
      cbn [has_hyphen_digit] in *; rewrite Hh, orb_false_r.
      subst r; exact Et.
Qed.

Lemma lazy_group_exact (X : jsstring) (d : code_unit) (rest acc : jsstring) :
  one_line X = true -> has_hyphen_digit X = false -> is_digit d = true ->
  lazy_group acc (X ++ hyphen :: d :: rest) = Some (rev acc ++ X).
Proof.
  intros Hl Hh Hd; revert acc; induction X as [|c X IH]; intros acc.
  - cbn; rewrite Hd, app_nil_r; reflexivity.
  - cbn in Hl; apply andb_true_iff in Hl as [Hc Hl].
    apply negb_true_iff in Hc.
    assert (Et : tail_matches ((c :: X) ++ hyphen :: d :: rest) = false).
    { destruct X as [|c2 X']; cbn [app tail_matches].
      - apply andb_false_r.
      - cbn [has_hyphen_digit] in Hh; now apply orb_false_iff in Hh as [Hh _]. }
    assert (Hh' : has_hyphen_digit X = false).
    { destruct X as [|c2 X']; [reflexivity|].
      cbn [has_hyphen_digit] in Hh; now apply orb_false_iff in Hh as [_ Hh]. }
    cbn [app lazy_group] in *; rewrite Et, Hc, IH by assumption.
    cbn [rev]; now rewrite <- app_assoc.
Qed.

Lemma match_app_id_here (id g : jsstring) :
  match_app_id id = Some g ->
  exists before w, id = before ++ w /\ match_here w = Some g.
Proof.
  induction id as [|c r IH]; cbn [match_app_id].
  - cbn; discriminate.
  - destruct (match_here (c :: r)) as [g'|] eqn:E.
    + intros H; inversion H; subst; exists [], (c :: r); auto.
    + intros H; apply IH in H as (before & w & Hs & Hw).
      exists (c :: before), w; subst; auto.
Qed.

Lemma match_app_id_group (id g : jsstring) :
  match_app_id id = Some g ->
  one_line g = true /\ has_hyphen_digit g = false.
Proof.
  intros H; apply match_app_id_here in H as (before & w & _ & Hw).
  unfold match_here in Hw.
  destruct (strip_prefix prefix w) as [u|]; [|discriminate].
  apply lazy_group_shortest in Hw as (taken & rest & _ & Hg & _ & Hl & Hh).
  cbn [rev app] in Hg; subst; auto.
Qed.

(** X1.  The pattern matches an identifier exactly when the identifier
    contains the literal prefix, then a run of code units without a line
    terminator, then a hyphen and a digit. *)
Theorem pattern_matches_iff (id : jsstring) :
  match_app_id id <> None <->
  exists before g d rest,
    id = before ++ prefix ++ g ++ hyphen :: d :: rest /\
    is_digit d = true /\ one_line g = true.
Proof.
  split.
  - destruct (match_app_id id) as [g|] eqn:E; [intros _ | congruence].
    apply match_app_id_sound in E as (before & d & rest & Hs & Hd & Hl).
    exists before, g, d, rest; auto.
  - intros (before & g & d & rest & Hs & Hd & Hl); subst id.
    apply match_app_id_skip.
    destruct (match_here (prefix ++ g ++ hyphen :: d :: rest)) as [g'|] eqn:E.
    + now rewrite (match_here_head _ g').
    + exfalso; unfold match_here in E; rewrite strip_prefix_app in E.
      now apply (lazy_group_total g d rest []).
Qed.

(** X2.  The identifier the pattern extracts holds no line terminator and
    no hyphen followed by a digit: the group stops at the first hyphen
    that a digit follows. *)
Theorem extracted_app_id_shape (id g : jsstring) :
  match_app_id id = Some g ->
  one_line g = true /\ has_hyphen_digit g = false.
Proof. apply match_app_id_group. Qed.

Lemma extracted_app_id_shape_witness :
  one_line (lit "my-app") = true /\ has_hyphen_digit (lit "my-app") = false.
Proof.
  exact (extracted_app_id_shape (lit "focus-mode-my-app-2-3") (lit "my-app") eq_refl).
Defined.

(** X3.  An identifier built as the prefix, an application identifier [X]
    without line terminator and without a hyphen followed by a digit, a
    hyphen and text that starts with a digit gives [X] back, whatever
    follows that digit.  In particular everything after the first hyphen
    followed by a digit is dropped. *)
Theorem app_id_round_trip (X : jsstring) (d : code_unit) (rest : jsstring) :
  one_line X = true -> has_hyphen_digit X = false -> is_digit d = true ->
  match_app_id (prefix ++ X ++ hyphen :: d :: rest) = Some X.
Proof.
  intros Hl Hh Hd; apply match_here_head.
  unfold match_here; rewrite strip_prefix_app.
  now rewrite lazy_group_exact.
Qed.

Lemma app_id_round_trip_witness :
  match_app_id (prefix ++ lit "app" ++ hyphen :: 50 :: lit "-1700000000000")
    = Some (lit "app") /\
  match_app_id (prefix ++ lit "app" ++ hyphen :: 51 :: lit "-1700000000001")
    = Some (lit "app").
Proof.
  split.
  - exact (app_id_round_trip (lit "app") 50 (lit "-1700000000000")
             eq_refl eq_refl eq_refl).
  - exact (app_id_round_trip (lit "app") 51 (lit "-1700000000001")
             eq_refl eq_refl eq_refl).
Defined.

(** ** When a show signal is displayed *)

Lemma not_duplicate_without_app_id (detail : ShowDetail) (s : State) :
  lastShownAppId s = None -> is_duplicate detail s = false.
Proof.
  intros HL; unfold is_duplicate; rewrite HL.
  destruct (currentAppId detail); [apply andb_false_r | reflexivity].
Qed.

Lemma not_duplicate_other_app (detail : ShowDetail) (s : State) (Y : jsstring) :
  match_app_id (d_notificationId detail) = Some Y ->
  lastShownAppId s <> Some Y ->
  is_duplicate detail s = false.
Proof.
  intros Hm Hne; destruct (is_duplicate detail s) eqn:E; [|reflexivity].
  apply is_duplicate_true in E as (X & HX & _ & HL); congruence.
Qed.

(** X4.  A show signal leaves the state untouched and dispatches nothing
    exactly when its identifier matches the pattern with a non-empty group
    that equals [lastShownAppId]. *)
Theorem show_signal_ignored_iff (ctx : Context) (now : N) (detail : ShowDetail)
    (s : State) :
  handleShowFocusPopup ctx now detail s = (s, []) <->
  exists X, match_app_id (d_notificationId detail) = Some X /\ X <> [] /\
            lastShownAppId s = Some X.
Proof.
  split.
  - intros H; apply is_duplicate_true.
    destruct (is_duplicate detail s) eqn:E; [reflexivity|].
    rewrite show_not_duplicate in H by assumption; discriminate.
  - intros (X & Hm & Hne & HL); now apply show_duplicate with (X := X).
Qed.

(** X5.  A show signal whose identifier carries a non-empty application
    identifier [Y] other than the recorded one is displayed, and [Y]
    becomes the recorded identifier: suppression is against the most
    recent application only. *)
Theorem show_for_other_app (ctx : Context) (now : N) (detail : ShowDetail)
    (s : State) (Y : jsstring) :
  match_app_id (d_notificationId detail) = Some Y -> Y <> [] ->
  lastShownAppId s <> Some Y ->
  handleShowFocusPopup ctx now detail s =
    ({| isOpen := true;
        notificationData := Some (assemble ctx detail);
        isImageLoaded := false;
        lastShownAppId := Some Y;
        timers := timers s ++ [now + auto_dismiss_delay] |},
     [FocusPopupDisplayed (d_notificationId detail) now]).
Proof.
  intros Hm Hne HL.
  rewrite show_not_duplicate by now apply not_duplicate_other_app with (Y := Y).
  unfold currentAppId; rewrite Hm; cbn [truthy_opt].
  apply truthy_nonempty in Hne; now rewrite Hne.
Qed.

Lemma show_for_other_app_witness :
  handleShowFocusPopup no_context 3000 youtube_detail twitter_open =
    ({| isOpen := true;
        notificationData := Some (assemble no_context youtube_detail);
        isImageLoaded := false;
        lastShownAppId := Some (lit "youtube");
        timers := [8000; 11000] |},
     [FocusPopupDisplayed (lit "focus-mode-youtube-1002") 3000]).
Proof.
  exact (show_for_other_app no_context 3000 youtube_detail twitter_open
           (lit "youtube") eq_refl ltac:(discriminate) ltac:(discriminate)).
Defined.

Lemma dismissal_clears_app_id (ctx : Context) (s s1 : State) (t1 : N) :
  s1 = fst (step ctx s (at_ t1 ClickDismiss)) \/
  (exists d, notificationData s = Some d /\
             s1 = fst (step ctx s (at_ t1 (DismissedElsewhere (notificationId d))))) ->
  lastShownAppId s1 = None.
Proof.
  intros [H|(d & Hd & H)]; subst s1.
  - unfold step, handleDismiss, handleNotificationDismissed; cbn [event at_].
    destruct (notificationData s) as [d|]; [|reflexivity].
    cbn [fst]; now destruct (str_eqb (notificationId d) (notificationId d)).
  - unfold step, handleNotificationDismissed; cbn [event at_ fst].
    now rewrite Hd, str_eqb_refl.
Qed.

(** X6.  Let [s1] be the state after a click on Dismiss, or after a
    dismissal signalled from elsewhere for the notification held.  Its
    [lastShownAppId] is null.  A show listener created in a render of
    [s1] (the effect has run again) displays the next show signal whatever
    application it is for, the one just dismissed included.  The listener
    created in the render before the dismissal still ignores a show
    signal for the application recorded then. *)
Theorem show_after_dismissal (ctx : Context) (s s1 : State) (t1 t2 : N)
    (detail : ShowDetail) :
  s1 = fst (step ctx s (at_ t1 ClickDismiss)) \/
  (exists d, notificationData s = Some d /\
             s1 = fst (step ctx s (at_ t1 (DismissedElsewhere (notificationId d))))) ->
  lastShownAppId s1 = None /\
  (forall seen_ctx seen,
      lastShownAppId seen = lastShownAppId s1 ->
      snd (showListener seen_ctx seen t2 detail s1)
        = [FocusPopupDisplayed (d_notificationId detail) t2] /\
      isOpen (fst (showListener seen_ctx seen t2 detail s1)) = true /\
      notificationData (fst (showListener seen_ctx seen t2 detail s1))
        = Some {| title := d_title detail;
                  body := d_body detail;
                  notificationId := d_notificationId detail;
                  appName := d_appName detail;
                  mediaContent :=
                    if truthy_opt (customImage seen_ctx)
                    then customImage seen_ctx else d_mediaContent detail |}) /\
  (forall X,
      X <> [] ->
      match_app_id (d_notificationId detail) = Some X ->
      lastShownAppId s = Some X ->
      showListener ctx s t2 detail s1 = (s1, [])).
Proof.
  intros H; pose proof (dismissal_clears_app_id ctx s s1 t1 H) as HL.
  split; [exact HL|]; split.
  - intros seen_ctx seen Hseen; rewrite HL in Hseen.
    unfold showListener.
    rewrite (not_duplicate_without_app_id detail seen Hseen).
    repeat split.
  - intros X Hne Hm HX; unfold showListener.
    replace (is_duplicate detail s) with true; [reflexivity|].
    symmetry; apply is_duplicate_true; eauto.
Qed.

Lemma show_after_dismissal_witness :
  let s1 := fst (step no_context twitter_open
                   (at_ 1000 (DismissedElsewhere (lit "focus-mode-twitter-1001")))) in
  snd (showListener no_context s1 1500 twitter_detail s1)
    = [FocusPopupDisplayed (lit "focus-mode-twitter-1001") 1500] /\
  showListener no_context twitter_open 1500 twitter_detail s1 = (s1, []).
Proof.
  destruct (show_after_dismissal no_context twitter_open
              (fst (step no_context twitter_open
                      (at_ 1000 (DismissedElsewhere (lit "focus-mode-twitter-1001")))))
              1000 1500 twitter_detail
              (or_intror (ex_intro _ (assemble no_context twitter_detail)
                            (conj eq_refl eq_refl))))
    as (_ & Hfresh & Hstale).
  split.
  - exact (proj1 (Hfresh no_context _ eq_refl)).
  - exact (Hstale (lit "twitter") ltac:(discriminate) eq_refl eq_refl).
Defined.

(** X7.  The timer closes the dialog without clearing the recorded
    application: once a pending timer has run, a show signal for the
    recorded application is still ignored and the dialog stays closed. *)
Theorem auto_close_keeps_suppression (ctx : Context) (s : State) (X : jsstring)
    (detail : ShowDetail) (due t1 t2 : N) :
  X <> [] ->
  lastShownAppId s = Some X ->
  match_app_id (d_notificationId detail) = Some X ->
  pending due s = true ->
  run ctx s [at_ t1 (TimerFire due); at_ t2 (ShowFocusPopup detail)] =
    ({| isOpen := false;
        notificationData := notificationData s;
        isImageLoaded := isImageLoaded s;
        lastShownAppId := Some X;
        timers := remove_timer due (timers s) |}, []).
Proof.
  intros Hne HL Hm Hp.
  cbn [run]; unfold step; cbn [event at_time at_]; rewrite Hp.
  rewrite (show_duplicate ctx t2 detail _ X) by (assumption || exact HL).
  unfold auto_dismiss, clearTimer, setIsOpen; cbn.
  now rewrite HL.
Qed.

Lemma auto_close_keeps_suppression_witness :
  run no_context twitter_open
    [at_ 8000 (TimerFire 8000); at_ 60000 (ShowFocusPopup twitter_detail)] =
    ({| isOpen := false;
        notificationData := Some (assemble no_context twitter_detail);
        isImageLoaded := true;
        lastShownAppId := Some (lit "twitter");
        timers := [] |}, []).
Proof.
  exact (auto_close_keeps_suppression no_context twitter_open (lit "twitter")
           twitter_detail 8000 8000 60000 ltac:(discriminate) eq_refl eq_refl
           eq_refl).
Defined.

(** X8.  A popup whose identifier does not match the pattern does not
    reset the recorded application: a show signal for the recorded
    application that follows it is ignored, and the popup on display
    remains the unmatched one. *)
Theorem unmatched_show_keeps_app_memory (ctx : Context) (s : State) (X : jsstring)
    (other detail : ShowDetail) (t1 t2 : N) :
  X <> [] ->
  lastShownAppId s = Some X ->
  match_app_id (d_notificationId other) = None ->
  match_app_id (d_notificationId detail) = Some X ->
  run ctx s [at_ t1 (ShowFocusPopup other); at_ t2 (ShowFocusPopup detail)] =
    ({| isOpen := true;
        notificationData := Some (assemble ctx other);
        isImageLoaded := false;
        lastShownAppId := Some X;
        timers := timers s ++ [t1 + auto_dismiss_delay] |},
     [FocusPopupDisplayed (d_notificationId other) t1]).
Proof.
  intros Hne HL Ho Hm.
  assert (Hc : currentAppId other = None) by exact Ho.
  assert (Hd : is_duplicate other s = false)
    by (unfold is_duplicate; now rewrite Hc).
  cbn [run]; unfold step; cbn [event at_time at_].
  rewrite (show_not_duplicate ctx t1 other s Hd), Hc; cbn [truthy_opt].
  rewrite (show_duplicate ctx t2 detail _ X) by (assumption || exact HL).
  now rewrite HL.
Qed.

Lemma unmatched_show_keeps_app_memory_witness :
  run no_context twitter_open
    [at_ 40 (ShowFocusPopup (show_detail "Reminder" "Back to work" "reminder-17" None));
     at_ 90 (ShowFocusPopup twitter_detail)] =
    ({| isOpen := true;
        notificationData :=
          Some (assemble no_context
                  (show_detail "Reminder" "Back to work" "reminder-17" None));
        isImageLoaded := false;
        lastShownAppId := Some (lit "twitter");
        timers := [8000; 8040] |},
     [FocusPopupDisplayed (lit "reminder-17") 40]).
Proof.
  exact (unmatched_show_keeps_app_memory no_context twitter_open (lit "twitter")
           (show_detail "Reminder" "Back to work" "reminder-17" None)
           twitter_detail 40 90 ltac:(discriminate) eq_refl eq_refl eq_refl).
Defined.

(** ** The image callbacks *)

Lemma run_cons_snd (ctx : Context) (s : State) (o : Occurrence) (r : list Occurrence) :
  snd (run ctx s (o :: r)) =
  snd (step ctx s o) ++ snd (run ctx (fst (step ctx s o)) r).
Proof.
  cbn [run]; destruct (step ctx s o) as [s1 out1]; cbn [fst snd].
  now destruct (run ctx s1 r).
Qed.

Lemma step_same_but_image_loaded (ctx : Context) (a b : State) (o : Occurrence) :
  same_but_image_loaded a b ->
  same_but_image_loaded (fst (step ctx a o)) (fst (step ctx b o)) /\
  snd (step ctx a o) = snd (step ctx b o).
Proof.
  destruct a as [oa da ia la ta], b as [ob db ib lb tb].
  intros (Ho & Hd & Hl & Ht); cbn in Ho, Hd, Hl, Ht; subst ob db lb tb.
  destruct o as [t e]; unfold step; cbn [event at_time].
  destruct e as [detail|id| |due| | |open]; cbn [fst snd].
  - unfold handleShowFocusPopup, is_duplicate; cbn [lastShownAppId].
    destruct (truthy_opt (currentAppId detail) && strict_eq (currentAppId detail) la);
      [now repeat split|].
    destruct (truthy_opt (currentAppId detail)); now repeat split.
  - unfold handleNotificationDismissed; cbn [notificationData].
    destruct da as [d|]; [|now repeat split].
    destruct (str_eqb id (notificationId d)); now repeat split.
  - unfold handleDismiss, handleNotificationDismissed; cbn [notificationData].
    destruct da as [d|]; [|now repeat split].
    cbn [fst snd]; destruct (str_eqb (notificationId d) (notificationId d));
      now repeat split.
  - unfold pending; cbn [timers].
    destruct (existsb (N.eqb due) ta); now repeat split.
  - now repeat split.
  - now repeat split.
  - now repeat split.
Qed.

Lemma run_without_image_events (ctx : Context) (tr : list Occurrence) (a b : State) :
  same_but_image_loaded a b ->
  same_but_image_loaded (fst (run ctx a tr))
                        (fst (run ctx b (without_image_events tr))) /\
  snd (run ctx a tr) = snd (run ctx b (without_image_events tr)).
Proof.
  revert a b; induction tr as [|o r IH]; intros a b H; [now split|].
  unfold without_image_events; cbn [filter].
  destruct (is_image_event o) eqn:E; cbn [negb].
  - rewrite run_cons, run_cons_snd.
    assert (Hs : same_but_image_loaded (fst (step ctx a o)) b /\
                 snd (step ctx a o) = []).
    { destruct o as [t e]; unfold is_image_event in E; cbn [event] in E.
      destruct H as (Ho & Hd & Hl & Ht).
      destruct e; try discriminate; now repeat split. }
    destruct Hs as [Hs Hn]; rewrite Hn; now apply IH.
  - rewrite !run_cons, !run_cons_snd.
    destruct (step_same_but_image_loaded ctx a b o H) as [Hs Hn].
    rewrite Hn; destruct (IH _ _ Hs) as [H1 H2].
    split; [exact H1 | now f_equal].
Qed.

(** X9.  A failed image load is handled like a successful one, and
    [isImageLoaded] is only ever written: either callback sets it and
    dispatches nothing, and a sequence of events renders the same and
    dispatches the same signals as the sequence without its image
    callbacks. *)
Theorem image_callbacks (ctx : Context) (s : State) :
  (forall t, step ctx s (at_ t ImageError) = step ctx s (at_ t ImageLoad) /\
             step ctx s (at_ t ImageError) = (setIsImageLoaded true s, [])) /\
  (forall tr,
      render ctx (fst (run ctx s tr))
        = render ctx (fst (run ctx s (without_image_events tr))) /\
      snd (run ctx s tr) = snd (run ctx s (without_image_events tr))).
Proof.
  split; [now split|].
  intros tr.
  destruct (run_without_image_events ctx tr s s) as [(Ho & Hd & _) Hn];
    [now repeat split|].
  split; [|exact Hn].
  unfold render; now rewrite Ho, Hd.
Qed.

(** ** The quote *)

Lemma trim_start_head (s r : jsstring) (c : code_unit) :
  trim_start s = c :: r -> is_white_space c = false.
Proof.
  induction s as [|x s IH]; cbn [trim_start]; [discriminate|].
  destruct (is_white_space x) eqn:E; [exact IH|].
  intros H; inversion H; subst; exact E.
Qed.

Lemma trim_start_suffix (s : jsstring) :
  exists dropped, s = dropped ++ trim_start s.
Proof.
  induction s as [|x s [dropped IH]]; cbn [trim_start]; [now exists []|].
  destruct (is_white_space x).
  - exists (x :: dropped); cbn; now f_equal.
  - now exists [].
Qed.

Lemma trim_ends (s r : jsstring) (c : code_unit) :
  trim s = c :: r ->
  is_white_space c = false /\ is_white_space (last (c :: r) c) = false.
Proof.
  unfold trim; intros H.
  apply (f_equal (@rev _)) in H; rewrite rev_involutive in H; cbn [rev] in H.
  split.
  - destruct (trim_start_suffix (rev (trim_start s))) as [dropped Hd].
    rewrite H in Hd.
    apply (f_equal (@rev _)) in Hd.
    rewrite rev_involutive, !rev_app_distr, rev_involutive in Hd; cbn in Hd.
    now apply trim_start_head in Hd.
  - destruct (rev r) as [|x y] eqn:E.
    + apply (f_equal (@rev _)) in E; rewrite rev_involutive in E; subst r.
      cbn in *; now apply trim_start_head in H.
    + apply (f_equal (@rev _)) in E; rewrite rev_involutive in E; subst r.
      cbn [rev]; change (c :: rev y ++ [x]) with ((c :: rev y) ++ [x]).
      rewrite last_last; cbn in H; now apply trim_start_head in H.
Qed.

(** X10.  The quote, when the dialog has one, is never empty and neither
    starts nor ends with white space. *)
Theorem quote_is_trimmed (ctx : Context) (d : NotificationData) (q : jsstring) :
  quote (dialog ctx d) = Some q ->
  exists c r, q = c :: r /\
              is_white_space c = false /\
              is_white_space (last q c) = false.
Proof.
  unfold dialog, motivationalText; cbn [quote].
  destruct (customText ctx) as [t|]; [|discriminate].
  destruct (truthy t && negb (str_eqb t systemMessage)); [|discriminate].
  destruct (trim (replace t systemMessage [])) as [|c r] eqn:E; [discriminate|].
  cbn [truthy]; intros H; inversion H; subst.
  exists c, r; split; [reflexivity|]; now apply trim_ends with (s := replace t systemMessage []).
Qed.

Lemma quote_is_trimmed_witness :
  exists c r, lit "Stay on track!" = c :: r /\
              is_white_space c = false /\
              is_white_space (last (lit "Stay on track!") c) = false.
Proof.
  exact (quote_is_trimmed with_quote (assemble with_quote twitter_detail)
           (lit "Stay on track!") eq_refl).
Defined.

(** ** Timers and signals over sequences of events *)

Lemma step_timers (ctx : Context) (s : State) (o : Occurrence) :
  match event o with TimerFire _ => false | _ => true end = true ->
  timers (fst (step ctx s o)) = timers s ++ due_times (snd (step ctx s o)).
Proof.
  destruct o as [t e]; unfold step; cbn [event at_time].
  destruct e as [detail|id| |due| | |open]; cbn [fst snd]; intros H;
    try discriminate; try (cbn; now rewrite app_nil_r).
  - destruct (is_duplicate detail s) eqn:E.
    + unfold handleShowFocusPopup; rewrite E; cbn; now rewrite app_nil_r.
    + now rewrite show_not_duplicate.
  - unfold handleNotificationDismissed.
    destruct (notificationData s) as [d|]; [|cbn; now rewrite app_nil_r].
    destruct (str_eqb id (notificationId d)); cbn; now rewrite app_nil_r.
  - unfold handleDismiss, handleNotificationDismissed.
    destruct (notificationData s) as [d|]; [|cbn; now rewrite app_nil_r].
    cbn [fst snd]; destruct (str_eqb (notificationId d) (notificationId d));
      cbn; now rewrite app_nil_r.
Qed.

(** X11.  Only the timer itself takes a timer off the queue: over a
    sequence of events in which no timer runs, the pending timers are
    those pending before, followed by one for every
    [focus-popup-displayed] dispatched, due 8000 ms after its timestamp.
    No dismissal and no later popup cancels one. *)
Theorem timers_are_never_cancelled (ctx : Context) (tr : list Occurrence) (s : State) :
  no_timer_runs tr = true ->
  timers (fst (run ctx s tr)) = timers s ++ due_times (snd (run ctx s tr)).
Proof.
  revert s; induction tr as [|o r IH]; intros s H.
  - cbn; now rewrite app_nil_r.
  - cbn [no_timer_runs forallb] in H; apply andb_true_iff in H as [Ho Hr].
    rewrite run_cons, run_cons_snd, IH by exact Hr.
    rewrite (step_timers ctx s o Ho).
    unfold due_times; now rewrite flat_map_app, app_assoc.
Qed.

Lemma timers_are_never_cancelled_witness :
  timers (fst (run no_context initial
                 [at_ 0 (ShowFocusPopup twitter_detail);
                  at_ 1000 ClickDismiss;
                  at_ 2000 (ShowFocusPopup twitter_detail);
                  at_ 2500 (DismissedElsewhere (lit "focus-mode-twitter-1001"))]))
    = [8000; 10000].
Proof.
  exact (timers_are_never_cancelled no_context
           [at_ 0 (ShowFocusPopup twitter_detail);
            at_ 1000 ClickDismiss;
            at_ 2000 (ShowFocusPopup twitter_detail);
            at_ 2500 (DismissedElsewhere (lit "focus-mode-twitter-1001"))]
           initial eq_refl).
Defined.

Lemma step_signal_count (ctx : Context) (s : State) (o : Occurrence) :
  (List.length (snd (step ctx s o)) <= if may_dispatch o then 1 else 0)%nat.
Proof.
  destruct o as [t e]; unfold step, may_dispatch; cbn [event at_time].
  destruct e as [detail|id| |due| | |open]; cbn [fst snd List.length]; try lia.
  - unfold handleShowFocusPopup; destruct (is_duplicate detail s); cbn; lia.
  - unfold handleDismiss; destruct (notificationData s); cbn; lia.
  - destruct (pending due s); cbn; lia.
Qed.

(** X12.  The component dispatches at most one signal per show signal and
    per click on Dismiss, and none for any other event: an incoming
    [notification-dismissed] is never answered with a signal, nor is a
    timer, an image callback or an open change. *)
Theorem signals_are_bounded (ctx : Context) (tr : list Occurrence) (s : State) :
  (List.length (snd (run ctx s tr)) <= List.length (filter may_dispatch tr))%nat.
Proof.
  revert s; induction tr as [|o r IH]; intros s; [cbn; lia|].
  rewrite run_cons_snd, length_app; cbn [filter].
  pose proof (step_signal_count ctx s o) as Ho.
  specialize (IH (fst (step ctx s o))).
  destruct (may_dispatch o); cbn [List.length]; lia.
Qed.

Lemma step_dismissed_id (ctx : Context) (s : State) (o : Occurrence) (id : jsstring) :
  In (NotificationDismissed id) (snd (step ctx s o)) -> In id (held_id s).
Proof.
  destruct o as [t e]; unfold step, held_id; cbn [event at_time].
  destruct e as [detail|i| |due| | |open]; cbn [fst snd In]; try tauto.
  - unfold handleShowFocusPopup; destruct (is_duplicate detail s); cbn.
    + tauto.
    + intros [H|[]]; discriminate.
  - unfold handleDismiss; destruct (notificationData s) as [d|]; cbn; [|tauto].
    intros [H|[]]; inversion H; auto.
  - destruct (pending due s); cbn; tauto.
Qed.

Lemma step_held_id (ctx : Context) (s : State) (o : Occurrence) (id : jsstring) :
  In id (held_id (fst (step ctx s o))) -> In id (held_id s ++ shown_ids [o]).
Proof.
  destruct o as [t e]; unfold step, shown_ids; cbn [event at_time flat_map].
  rewrite app_nil_r.
  destruct e as [detail|i| |due| | |open]; cbn [fst]; rewrite ?app_nil_r;
    try (intros H; exact H).
  - destruct (is_duplicate detail s) eqn:E.
    + unfold handleShowFocusPopup; rewrite E; cbn [fst].
      intros H; apply in_or_app; now left.
    + rewrite show_not_duplicate by assumption; unfold held_id at 1; cbn.
      intros [H|[]]; apply in_or_app; right; now left.
  - unfold handleNotificationDismissed, held_id.
    destruct (notificationData s) as [d|] eqn:E; [|now rewrite E].
    destruct (str_eqb i (notificationId d)); cbn; now rewrite ?E.
  - unfold handleDismiss, handleNotificationDismissed, held_id.
    destruct (notificationData s) as [d|] eqn:E; cbn [fst]; [|cbn; now rewrite E].
    destruct (str_eqb (notificationId d) (notificationId d)); cbn; now rewrite ?E.
  - unfold held_id; destruct (pending due s); cbn; tauto.
Qed.

Lemma run_dismissed_id (ctx : Context) (tr : list Occurrence) (s : State)
    (id : jsstring) :
  In (NotificationDismissed id) (snd (run ctx s tr)) ->
  In id (held_id s ++ shown_ids tr).
Proof.
  revert s; induction tr as [|o r IH]; intros s; [intros []|].
  rewrite run_cons_snd; intros H; apply in_app_or in H as [H|H].
  - apply step_dismissed_id in H; apply in_or_app; now left.
  - apply IH, in_app_or in H as [H|H].
    + apply step_held_id, in_app_or in H as [H|H]; apply in_or_app; [now left|].
      right; change (o :: r) with ([o] ++ r).
      unfold shown_ids in *; rewrite flat_map_app; apply in_or_app; now left.
    + apply in_or_app; right; change (o :: r) with ([o] ++ r).
      unfold shown_ids in *; rewrite flat_map_app; apply in_or_app; now right.
Qed.

(** X13.  From the state on mount, every [notification-dismissed] the
    component dispatches carries the [notificationId] of a show signal it
    has received. *)
Theorem dismissed_ids_were_shown (ctx : Context) (tr : list Occurrence)
    (id : jsstring) :
  In (NotificationDismissed id) (snd (run ctx initial tr)) ->
  In id (shown_ids tr).
Proof. intros H; now apply run_dismissed_id in H. Qed.

Lemma dismissed_ids_were_shown_witness :
  In (lit "focus-mode-twitter-1001")
     (shown_ids [at_ 0 (ShowFocusPopup twitter_detail); at_ 1000 ClickDismiss]).
Proof.
  apply (dismissed_ids_were_shown no_context
           [at_ 0 (ShowFocusPopup twitter_detail); at_ 1000 ClickDismiss]).
  right; left; reflexivity.
Defined.

(** ** The recorded application identifier *)

Lemma step_recorded_app_id (ctx : Context) (s : State) (o : Occurrence) :
  recorded_app_id_ok s -> recorded_app_id_ok (fst (step ctx s o)).
Proof.
  intros H; destruct o as [t e]; unfold step; cbn [event at_time].
  destruct e as [detail|id| |due| | |open]; cbn [fst]; try exact H.
  - destruct (is_duplicate detail s) eqn:E.
    + unfold handleShowFocusPopup; rewrite E; exact H.
    + rewrite show_not_duplicate by assumption; cbn [fst].
      unfold recorded_app_id_ok in *; cbn [lastShownAppId notificationData].
      unfold currentAppId.
      destruct (match_app_id (d_notificationId detail)) as [X|] eqn:Em;
        cbn [truthy_opt].
      * destruct (truthy X) eqn:Et.
        -- apply truthy_nonempty in Et.
           destruct (match_app_id_group _ _ Em) as [Hl Hh].
           repeat split; auto; discriminate.
        -- destruct (lastShownAppId s); [|exact I].
           destruct H as (H1 & H2 & H3 & _); repeat split; auto; discriminate.
      * destruct (lastShownAppId s); [|exact I].
        destruct H as (H1 & H2 & H3 & _); repeat split; auto; discriminate.
  - unfold handleNotificationDismissed.
    destruct (notificationData s) as [d|]; [|exact H].
    destruct (str_eqb id (notificationId d)); [exact I | exact H].
  - unfold handleDismiss, handleNotificationDismissed.
    destruct (notificationData s) as [d|]; cbn [fst]; [|exact I].
    destruct (str_eqb (notificationId d) (notificationId d)); exact I.
  - destruct (pending due s); exact H.
Qed.

Lemma run_recorded_app_id (ctx : Context) (tr : list Occurrence) (s : State) :
  recorded_app_id_ok s -> recorded_app_id_ok (fst (run ctx s tr)).
Proof.
  revert s; induction tr as [|o r IH]; intros s H; [exact H|].
  rewrite run_cons; now apply IH, step_recorded_app_id.
Qed.

(** X14.  From the state on mount, whatever happens, [lastShownAppId] is
    either null or a non-empty string without line terminator and without
    a hyphen followed by a digit, and in the latter case notification data
    is held. *)
Theorem recorded_app_id_invariant (ctx : Context) (tr : list Occurrence) :
  recorded_app_id_ok (fst (run ctx initial tr)).
Proof. apply run_recorded_app_id; exact I. Qed.

(** ** The closures of the listeners *)

(** X15.  The listeners read nothing but the dependencies of the effect:
    a [show-focus-popup] listener created in a render with the same
    [customImage] and [lastShownAppId] as now, and a
    [notification-dismissed] listener created in a render with the same
    [notificationData] as now, act as if created in the current render. *)
Theorem listeners_read_only_dependencies (seen_ctx ctx : Context) (seen s : State)
    (now : N) (detail : ShowDetail) (id : jsstring) :
  (customImage seen_ctx = customImage ctx ->
   lastShownAppId seen = lastShownAppId s ->
   showListener seen_ctx seen now detail s = handleShowFocusPopup ctx now detail s) /\
  (notificationData seen = notificationData s ->
   handleNotificationDismissed seen id s = handleNotificationDismissed s id s).
Proof.
  split.
  - intros Hc HL.
    unfold showListener, handleShowFocusPopup, is_duplicate, assemble,
      finalMediaContent.
    now rewrite Hc, HL.
  - intros Hd; unfold handleNotificationDismissed; now rewrite Hd.
Qed.

Lemma listeners_read_only_dependencies_witness :
  showListener with_quote (setIsImageLoaded false (setIsOpen false twitter_open))
    3000 youtube_detail twitter_open
    = handleShowFocusPopup no_context 3000 youtube_detail twitter_open /\
  handleNotificationDismissed (setIsOpen false twitter_open)
    (lit "focus-mode-twitter-1001") twitter_open
    = handleNotificationDismissed twitter_open
        (lit "focus-mode-twitter-1001") twitter_open.
Proof.
  split.
  - exact (proj1 (listeners_read_only_dependencies with_quote no_context
                    (setIsImageLoaded false (setIsOpen false twitter_open))
                    twitter_open 3000 youtube_detail []) eq_refl eq_refl).
  - exact (proj2 (listeners_read_only_dependencies no_context no_context
                    (setIsOpen false twitter_open) twitter_open 0 youtube_detail
                    (lit "focus-mode-twitter-1001")) eq_refl).
Defined.

(** X16.  Suppression rests on the listener being replaced after a popup
    is displayed: a [show-focus-popup] listener that handles two signals
    for the same application, which its render has not seen as the
    recorded one, displays both, although the first has recorded the
    application by the time the second arrives. *)
Theorem same_listener_displays_twice (ctx : Context) (seen s : State) (X : jsstring)
    (d1 d2 : ShowDetail) (t1 t2 : N) :
  X <> [] ->
  match_app_id (d_notificationId d1) = Some X ->
  match_app_id (d_notificationId d2) = Some X ->
  lastShownAppId seen <> Some X ->
  let s1 := fst (showListener ctx seen t1 d1 s) in
  lastShownAppId s1 = Some X /\
  showListener ctx seen t2 d2 s1 =
    ({| isOpen := true;
        notificationData := Some (assemble ctx d2);
        isImageLoaded := false;
        lastShownAppId := Some X;
        timers := (timers s ++ [t1 + auto_dismiss_delay])
                    ++ [t2 + auto_dismiss_delay] |},
     [FocusPopupDisplayed (d_notificationId d2) t2]).
Proof.
  intros Hne H1 H2 HL; cbv zeta; unfold showListener.
  rewrite (not_duplicate_other_app d1 seen X H1 HL),
          (not_duplicate_other_app d2 seen X H2 HL).
  unfold currentAppId; rewrite H1, H2; cbn [truthy_opt].
  apply truthy_nonempty in Hne; rewrite Hne.
  split; reflexivity.
Qed.

Lemma same_listener_displays_twice_witness :
  snd (showListener no_context initial 10 twitter_detail
         (fst (showListener no_context initial 0 twitter_detail initial)))
    = [FocusPopupDisplayed (lit "focus-mode-twitter-1001") 10].
Proof.
  exact (f_equal snd
           (proj2 (same_listener_displays_twice no_context initial initial
                     (lit "twitter") twitter_detail twitter_detail 0 10
                     ltac:(discriminate) eq_refl eq_refl ltac:(discriminate)))).
Defined.

(** ** Registration of the listeners *)

Lemma remove_not_registered (l : Listener) (reg r : list Listener) :
  not_registered (snd l) reg = true ->
  removeEventListener l (reg ++ l :: r) = reg ++ r.
Proof.
  intros H; induction reg as [|x reg IH]; cbn [app removeEventListener].
  - unfold listener_eqb; rewrite N.eqb_refl.
    now destruct (fst l).
  - cbn in H; apply andb_true_iff in H as [Hx Hr].
    unfold listener_eqb at 1; apply negb_true_iff in Hx.
    rewrite N.eqb_sym, Hx, andb_false_r, IH by exact Hr; reflexivity.
Qed.

Lemma subscribe_fresh (g : N) (reg : list Listener) :
  not_registered g reg = true ->
  subscribe g reg = reg ++ [(show_focus_popup, g); (notification_dismissed, g)].
Proof.
  intros H; unfold subscribe, addEventListener at 2.
  replace (existsb (listener_eqb (show_focus_popup, g)) reg) with false.
  - unfold addEventListener; rewrite existsb_app.
    replace (existsb (listener_eqb (notification_dismissed, g)) reg) with false.
    + cbn; now rewrite <- app_assoc.
    + symmetry; induction reg as [|x r IH]; [reflexivity|].
      cbn in *; apply andb_true_iff in H as [Hx Hr].
      rewrite IH, orb_false_r by exact Hr.
      unfold listener_eqb; cbn [snd]; apply negb_true_iff in Hx.
      rewrite N.eqb_sym, Hx; apply andb_false_r.
  - symmetry; induction reg as [|x r IH]; [reflexivity|].
    cbn in *; apply andb_true_iff in H as [Hx Hr].
    rewrite IH, orb_false_r by exact Hr.
    unfold listener_eqb; cbn [snd]; apply negb_true_iff in Hx.
    rewrite N.eqb_sym, Hx; apply andb_false_r.
Qed.

Lemma cleanup_subscribed (g : N) (reg : list Listener) :
  not_registered g reg = true ->
  cleanup g (reg ++ [(show_focus_popup, g); (notification_dismissed, g)]) = reg.
Proof.
  intros H; unfold cleanup.
  rewrite (remove_not_registered (show_focus_popup, g)) by exact H.
  rewrite (remove_not_registered (notification_dismissed, g)) by exact H.
  apply app_nil_r.
Qed.

Lemma last_cons (A : Type) (r : list A) (a d : A) : last (a :: r) d = last r a.
Proof.
  revert a d; induction r as [|b r IH]; intros a d; [reflexivity|].
  change (last (a :: b :: r) d) with (last (b :: r) d).
  now rewrite (IH b d), (IH b a).
Qed.

(** X17.  The effect leaves no listener behind.  Whenever its callbacks
    are new to the window, then after the first run and any number of
    further runs exactly the two listeners of the run in force are
    registered, at the end of the list, and the cleanup of that run gives
    back the list as it was before the component mounted. *)
Theorem effect_leaves_no_listener (reg : list Listener) (g : N) (later : list N) :
  (forall g', In g' (g :: later) -> not_registered g' reg = true) ->
  rerun g later (subscribe g reg) =
    reg ++ [(show_focus_popup, current_run g later);
            (notification_dismissed, current_run g later)] /\
  cleanup (current_run g later) (rerun g later (subscribe g reg)) = reg.
Proof.
  revert g; induction later as [|g' r IH]; intros g H.
  - cbn [rerun current_run last].
    rewrite subscribe_fresh by (apply H; now left).
    split; [reflexivity | apply cleanup_subscribed, H; now left].
  - cbn [rerun]; unfold current_run; rewrite last_cons.
    rewrite (subscribe_fresh g) by (apply H; now left).
    rewrite cleanup_subscribed by (apply H; now left).
    apply IH; intros g'' Hin; apply H; now right.
Qed.

Lemma effect_leaves_no_listener_witness :
  rerun 1 [2; 3] (subscribe 1 [(show_focus_popup, 0)]) =
    [(show_focus_popup, 0); (show_focus_popup, 3); (notification_dismissed, 3)] /\
  cleanup 3 (rerun 1 [2; 3] (subscribe 1 [(show_focus_popup, 0)])) =
    [(show_focus_popup, 0)].
Proof.
  apply (effect_leaves_no_listener [(show_focus_popup, 0)] 1 [2; 3]).
  intros g' [H|[H|[H|[]]]]; subst; reflexivity.
Defined.

(** ** Closing through the dialog *)

(** X18.  When the dialog reports that it closed ([onOpenChange] with
    false), only [isOpen] changes and nothing is dispatched: the recorded
    application stays, so a show signal for it that follows is ignored
    and the dialog stays closed. *)
Theorem close_through_dialog (ctx : Context) (s : State) (X : jsstring)
    (detail : ShowDetail) (t1 t2 : N) :
  X <> [] ->
  lastShownAppId s = Some X ->
  match_app_id (d_notificationId detail) = Some X ->
  run ctx s [at_ t1 (OpenChange false); at_ t2 (ShowFocusPopup detail)] =
    ({| isOpen := false;
        notificationData := notificationData s;
        isImageLoaded := isImageLoaded s;
        lastShownAppId := Some X;
        timers := timers s |}, []).
Proof.
  intros Hne HL Hm.
  cbn [run]; unfold step; cbn [event at_time at_].
  rewrite (show_duplicate ctx t2 detail _ X) by (assumption || exact HL).
  unfold setIsOpen; cbn; now rewrite HL.
Qed.

Lemma close_through_dialog_witness :
  run no_context twitter_open
    [at_ 700 (OpenChange false); at_ 900 (ShowFocusPopup twitter_detail)] =
    ({| isOpen := false;
        notificationData := Some (assemble no_context twitter_detail);
        isImageLoaded := true;
        lastShownAppId := Some (lit "twitter");
        timers := [8000] |}, []).
Proof.
  exact (close_through_dialog no_context twitter_open (lit "twitter")
           twitter_detail 700 900 ltac:(discriminate) eq_refl eq_refl).
Defined.

(** ** The image block *)

(** X19.  The dialog has an image block exactly when the context image or
    the stored one is a non-empty string; the [src] is then never empty,
    and it is the context image whenever that one is non-empty. *)
Theorem image_block (ctx : Context) (d : NotificationData) :
  (image (dialog ctx d) = None <->
   truthy_opt (customImage ctx) = false /\ truthy_opt (mediaContent d) = false) /\
  (forall src, image (dialog ctx d) = Some src ->
     src <> [] /\
     (truthy_opt (customImage ctx) = true -> customImage ctx = Some src) /\
     (truthy_opt (customImage ctx) = false -> mediaContent d = Some src)).
Proof.
  unfold dialog, displayImage, or_else; cbn [image].
  destruct (customImage ctx) as [[|c ci]|];
    destruct (mediaContent d) as [[|m mc]|]; cbn;
    (split; [split; [intros H | intros [H1 H2]] | intros src H; inversion H; subst];
     repeat split; intros; try discriminate; try congruence).
Qed.

Lemma image_block_witness :
  lit "https://example.org/event.png" <> [] /\
  mediaContent (assemble no_context youtube_detail)
    = Some (lit "https://example.org/event.png").
Proof.
  destruct (proj2 (image_block no_context (assemble no_context youtube_detail))
              (lit "https://example.org/event.png") eq_refl) as (Hn & _ & Hm).
  exact (conj Hn (Hm eq_refl)).
Defined.

(** X20.  The image of the signal is lost when a context image is in
    force at the time of the signal: if the context image is gone at a
    later render, the dialog still shows the former context image, which
    was stored in place of the signal's [mediaContent]. *)
Theorem stored_image_outlives_context (ctx later_ctx : Context) (now : N)
    (detail : ShowDetail) (s : State) (img : jsstring) :
  is_duplicate detail s = false ->
  customImage ctx = Some img -> img <> [] ->
  truthy_opt (customImage later_ctx) = false ->
  exists dlg,
    render later_ctx (fst (handleShowFocusPopup ctx now detail s))
      = Presence (Some dlg) /\
    image dlg = Some img.
Proof.
  intros Hd Hc Hne Hl.
  rewrite show_not_duplicate by assumption; unfold render; cbn.
  eexists; split; [reflexivity|].
  unfold dialog, displayImage, assemble, finalMediaContent; cbn [image mediaContent].
  rewrite Hc, (or_else_absent _ _ Hl), or_else_present by assumption.
  cbn [truthy_opt]; apply truthy_nonempty in Hne; now rewrite Hne.
Qed.

Lemma stored_image_outlives_context_witness :
  exists dlg,
    render no_context (fst (handleShowFocusPopup with_image 0 youtube_detail initial))
      = Presence (Some dlg) /\
    image dlg = Some (lit "data:image/png;base64,AAAA").
Proof.
  exact (stored_image_outlives_context with_image no_context 0 youtube_detail
           initial (lit "data:image/png;base64,AAAA") eq_refl eq_refl
           ltac:(discriminate) eq_refl).
Defined.

(** ** A body without the placeholder *)

Lemma split_first_finds (p before after : jsstring) :
  split_first p (before ++ p ++ after) <> None.
Proof.
  induction before as [|c b IH].
  - cbn [app]; destruct (p ++ after) eqn:E; cbn [split_first];
      rewrite <- E, strip_prefix_app; discriminate.
  - cbn [app split_first].
    destruct (strip_prefix p (c :: b ++ p ++ after)); [discriminate|].
    destruct (split_first p (b ++ p ++ after)) as [[x y]|]; [discriminate|].
    now elim IH.
Qed.

(** X21.  A body in which [{app}] does not occur is rendered as it is,
    whatever the application name. *)
Theorem body_without_placeholder (d : NotificationData) :
  (forall before after, body d <> before ++ lit "{app}" ++ after) ->
  bodyText d = body d.
Proof.
  intros H; unfold bodyText, replace.
  destruct (split_first (lit "{app}") (body d)) as [[b a]|] eqn:E; [|reflexivity].
  apply split_first_sound in E; now elim (H b a).
Qed.

Lemma body_without_placeholder_witness :
  bodyText (assemble no_context
              (show_detail "Reminder" "Back to work" "reminder-17"
                 (Some "Notes"%string)))
    = lit "Back to work".
Proof.
  apply (body_without_placeholder
           (assemble no_context
              (show_detail "Reminder" "Back to work" "reminder-17"
                 (Some "Notes"%string)))).
  intros before after E.
  apply (split_first_finds (lit "{app}") before after).
  rewrite <- E; reflexivity.
Defined.
